(** * ACE Signal Lab, phase 1: the correction pipeline [process_file]

    A shallow embedding of [process_file] of [app_lab_phase1.py] and the
    properties of its two tables and four summary scalars.

    - Numbers are IEEE 754 binary64 values, as Python's [float] and numpy's
      [float64] are: [spec_float] with precision 53 and maximal exponent
      1024, under the executable operations of [SpecFloat].  NaN, the
      infinities and the two zeros are values like any other.
    - A float object also has a class, the builtin [float] or numpy's
      [float64], and [round(x, 4)] is the [__round__] of the class of [x]:
      the correctly rounded decimal for a [float], and
      [rint(x * 10^4) / 10^4] for a [float64].
    - A frame is the ordered list of its named, typed columns;
      [df[name] = ...] replaces a column of that name or appends a new one.
      The embedding follows sheets whose two measurement columns are
      float64; on any other sheet the model stops at [NotFloat64] and says
      nothing about what the code computes there.
    - [Series.sum] and [Series.mean] put [0.0] in place of the NaN cells
      and add the cells up as numpy's [add.reduce] does: in row order below
      8 cells, with 8 running sums up to 128 cells, and by halves above.
    - The clock reading of line 54 is a parameter; the two workbooks
      written at lines 59 and 60 are the two tables returned, under the
      two file names returned.
    - [process_file] raises [KeyError] when a measurement column is
      missing; the source has no other raise, guard or exception class. *)

From Stdlib Require Import ZArith List String Bool Lia.
From Stdlib Require Import Floats.SpecFloat.
Import ListNotations.

Local Open Scope Z_scope.

(** ** Binary64 arithmetic *)

(** The integer nearest to [num / den] for [0 <= num] and [0 < den],
    a tie going to the even neighbour. *)
Definition round_half_even (num den : Z) : Z :=
  let q := num / den in
  let r := num mod den in
  match 2 * r ?= den with
  | Lt => q
  | Gt => q + 1
  | Eq => if Z.even q then q else q + 1
  end.

Module F64.

Definition prec : Z := 53.
Definition emax : Z := 1024.

Definition float : Type := spec_float.

Definition nan : float := S754_nan.
Definition zero : float := S754_zero false.

Definition add : float -> float -> float := SFadd prec emax.
Definition sub : float -> float -> float := SFsub prec emax.
Definition mul : float -> float -> float := SFmul prec emax.
Definition div : float -> float -> float := SFdiv prec emax.
Definition abs : float -> float := SFabs.

Definition eqb : float -> float -> bool := SFeqb.
Definition ltb : float -> float -> bool := SFltb.
Definition leb : float -> float -> bool := SFleb.

(** Conversion of an integer, as Python does for a literal such as [100]
    that meets a float in an arithmetic operation. *)
Definition of_Z (z : Z) : float := binary_normalize prec emax z 0 false.

(** A binary64 datum: canonical mantissa and exponent in range. *)
Definition valid (x : float) : bool := valid_binary prec emax x.

Definition is_nan (x : float) : bool :=
  match x with S754_nan => true | _ => false end.

Definition is_finite (x : float) : bool :=
  match x with S754_zero _ | S754_finite _ _ _ => true | _ => false end.

(** The value [m / 2^k], correctly rounded; used to write literals. *)
Definition dyadic (m : Z) (k : Z) : float := binary_normalize prec emax m (- k) false.

(** The integer [n >= 0] under the sign [s], the zero keeping the sign. *)
Definition of_signed (s : bool) (n : Z) : float :=
  binary_normalize prec emax (cond_Zopp s n) 0 s.

End F64.

(** ** The part of numpy under [Series.sum] and [round] *)

Module Np.

(** [np.rint]: the nearest integer, a tie going to the even one; the
    sign is kept, also when the result is zero. *)
Definition rint (x : F64.float) : F64.float :=
  match x with
  | S754_finite s m e =>
      if 0 <=? e then x
      else F64.of_signed s (round_half_even (Zpos m) (2 ^ (- e)))
  | _ => x
  end.

(** [float64.__round__(decimals)] for [0 < decimals]: scale by
    [10^decimals], round to an integer, scale back.  Each of the three
    steps is an operation on floats. *)
Definition round (x : F64.float) (decimals : nat) : F64.float :=
  let f := F64.of_Z (10 ^ Z.of_nat decimals) in
  F64.div (rint (F64.mul x f)) f.

(** The inner loop of [add.reduce] on a float64 array.  From 8 cells on,
    8 running sums take the cells 8 at a time; they are added up as a
    balanced tree and the cells left over are added one by one. *)
Fixpoint unrolled (r0 r1 r2 r3 r4 r5 r6 r7 : F64.float) (xs : list F64.float)
  : F64.float :=
  match xs with
  | x0 :: x1 :: x2 :: x3 :: x4 :: x5 :: x6 :: x7 :: rest =>
      unrolled (F64.add r0 x0) (F64.add r1 x1) (F64.add r2 x2) (F64.add r3 x3)
               (F64.add r4 x4) (F64.add r5 x5) (F64.add r6 x6) (F64.add r7 x7) rest
  | _ =>
      fold_left F64.add xs
        (F64.add (F64.add (F64.add r0 r1) (F64.add r2 r3))
                 (F64.add (F64.add r4 r5) (F64.add r6 r7)))
  end.

(** At most 128 cells: in row order from [0.0] below 8 cells, unrolled
    from there on. *)
Definition block (xs : list F64.float) : F64.float :=
  match xs with
  | x0 :: x1 :: x2 :: x3 :: x4 :: x5 :: x6 :: x7 :: rest =>
      unrolled x0 x1 x2 x3 x4 x5 x6 x7 rest
  | _ => fold_left F64.add xs F64.zero
  end.

(** Where an array of [n > 128] cells is cut: at half its length, taken
    down to a multiple of 8. *)
Definition cut (n : nat) : nat := (Nat.div n 2 - Nat.modulo (Nat.div n 2) 8)%nat.

(** More than 128 cells: the sum of the two parts.  [fuel] bounds the
    depth of the cutting; the length of the array is enough of it. *)
Fixpoint pairwise_sum (fuel : nat) (xs : list F64.float) : F64.float :=
  if Nat.leb (List.length xs) 128 then block xs
  else
    match fuel with
    | O => block xs
    | S fuel =>
        F64.add (pairwise_sum fuel (firstn (cut (List.length xs)) xs))
                (pairwise_sum fuel (skipn (cut (List.length xs)) xs))
    end.

(** [ndarray.sum()] of a float64 array: the result starts as the
    identity [0.0] and the loop adds the pairwise sum to it. *)
Definition sum (xs : list F64.float) : F64.float :=
  F64.add F64.zero (pairwise_sum (List.length xs) xs).

End Np.

(** ** Python built-ins used by the pipeline *)

Module Py.

(** [a != b], [a > b] and [a < b] on floats; every comparison with a NaN
    is false, so [a != b] is true there. *)
Definition ne (a b : F64.float) : bool := negb (F64.eqb a b).
Definition gt (a b : F64.float) : bool := F64.ltb b a.
Definition lt (a b : F64.float) : bool := F64.ltb a b.

(** [min(a, b)]: the first argument is kept unless the second is
    strictly smaller. *)
Definition min (a b : F64.float) : F64.float := if F64.ltb b a then b else a.

(** The class of a float object.  numpy's [float64] subclasses [float];
    an arithmetic operation with a [float64] operand gives a [float64]. *)
Inductive float_class := builtin_float | numpy_float64.

(** [min] returns one of its arguments, the object itself: the class of
    [min(a, b)] for [a] of class [ca] and [b] of class [cb]. *)
Definition min_class (a b : F64.float) (ca cb : float_class) : float_class :=
  if F64.ltb b a then cb else ca.

(** The number of [10^-ndigits] steps nearest to the exact value
    [m * 2^e] of a finite float. *)
Definition scaled (m : positive) (e : Z) (ndigits : nat) : Z :=
  let p := 10 ^ Z.of_nat ndigits in
  if 0 <=? e then Zpos m * 2 ^ e * p
  else round_half_even (Zpos m * p) (2 ^ (- e)).

(** The float nearest to the decimal [+-n / 10^ndigits]. *)
Definition nearest_decimal (s : bool) (n : Z) (ndigits : nat) : F64.float :=
  match n with
  | Zpos p =>
      SFdiv F64.prec F64.emax
        (S754_finite s p 0)
        (S754_finite false (Z.to_pos (10 ^ Z.of_nat ndigits)) 0)
  | _ => S754_zero s
  end.

(** [float.__round__(ndigits)] for [0 <= ndigits]: the exact value of [x]
    goes to the nearest multiple of [10^-ndigits], half to even, and that
    decimal goes to the nearest float.  Zeros, infinities and NaN round to
    themselves and the sign is kept. *)
Definition float_round (x : F64.float) (ndigits : nat) : F64.float :=
  match x with
  | S754_finite s m e => nearest_decimal s (scaled m e ndigits) ndigits
  | _ => x
  end.

(** [round(x, ndigits)] calls the [__round__] of the class of [x]. *)
Definition round (c : float_class) (x : F64.float) (ndigits : nat) : F64.float :=
  match c with
  | builtin_float => float_round x ndigits
  | numpy_float64 => Np.round x ndigits
  end.

End Py.

(** ** The part of pandas that [process_file] touches *)

Module Pd.

(** A column is a typed array. *)
Inductive column :=
| FloatCol (xs : list F64.float)   (* float64 *)
| IntCol (ns : list Z)             (* int64 *)
| BoolCol (bs : list bool)         (* bool *)
| ObjCol (ss : list string).       (* object: text, timestamps as text *)

(** A frame: its columns in order, under unique names. *)
Definition DataFrame : Type := list (string * column).

(** How a run of the model ends when it returns no tables.  [KeyError]
    is the exception that the subscript [df[name]] of line 15 raises.
    [NotFloat64] is no exception of the code: it marks a sheet with a
    measurement column of another dtype, where this embedding stops and
    the code goes on at that dtype. *)
Inductive stop :=
| KeyError (name : string)
| NotFloat64 (name : string).

Definition height (c : column) : nat :=
  match c with
  | FloatCol xs => List.length xs
  | IntCol ns => List.length ns
  | BoolCol bs => List.length bs
  | ObjCol ss => List.length ss
  end.

(** [df[name]] *)
Fixpoint get_col (name : string) (df : DataFrame) : option column :=
  match df with
  | [] => None
  | (n, c) :: rest => if String.eqb n name then Some c else get_col name rest
  end.

(** [df[name] = c]: an existing column is replaced in place, a new one
    is appended. *)
Fixpoint set_col (name : string) (c : column) (df : DataFrame) : DataFrame :=
  match df with
  | [] => [(name, c)]
  | (n, c0) :: rest =>
      if String.eqb n name then (n, c) :: rest
      else (n, c0) :: set_col name c rest
  end.

(** [Series.sum()] and [Series.mean()] with their defaults.  The NaN
    cells are replaced by [0.0] and the array is summed by numpy; the mean
    divides that sum by the number of cells that are not NaN, and the mean
    of no cell at all is NaN. *)
Definition notna (x : F64.float) : bool := negb (F64.is_nan x).

Definition fillna (x : F64.float) : F64.float := if F64.is_nan x then F64.zero else x.

Definition sum (xs : list F64.float) : F64.float := Np.sum (map fillna xs).

Definition count (xs : list F64.float) : nat := List.length (filter notna xs).

Definition mean (xs : list F64.float) : F64.float :=
  match count xs with
  | O => F64.nan
  | n => F64.div (sum xs) (F64.of_Z (Z.of_nat n))
  end.

End Pd.

Import Pd.

(** ** [process_file] *)

(** Line 15: [np.where(before != after, 1, -1)], per row. *)
Definition anomaly_score (before after : F64.float) : Z :=
  if Py.ne before after then 1 else -1.

(** Line 18: [df['anomaly_score'] == 1], per row. *)
Definition is_anomaly (score : Z) : bool := score =? 1.

(** Lines 21-26. *)
Definition more_or_less (before after : F64.float) : string :=
  if Py.gt after before then "more"%string
  else if Py.lt after before then "less"%string
  else "equal"%string.

(** Lines 29-32.  The literal [0] of the equal branch is stored as [0.0]
    in the float64 column. *)
Definition error (before after : F64.float) : F64.float :=
  if Py.ne before after then F64.abs (F64.sub after before) else F64.zero.

(** Line 41: the ceiling of the correction percentage. *)
Definition cap : F64.float := F64.of_Z 5.

(** Line 41: the class of [min(avg_error_pct, 5.0)].  [avg_error_pct]
    comes from [Series.mean] and is a [float64]; the literal [5.0] is a
    [float].  (The mean of no cell at all is the [float] NaN; a NaN
    [avg_error_pct] makes every product NaN, which both classes round to
    NaN.) *)
Definition capped_class (avg_error_pct : F64.float) : Py.float_class :=
  Py.min_class avg_error_pct cap Py.numpy_float64 Py.builtin_float.

(** Line 47: [row['ace_before'] * (1 + capped_pct / 100)]. *)
Definition product (capped_pct before : F64.float) : F64.float :=
  F64.mul before (F64.add (F64.of_Z 1) (F64.div capped_pct (F64.of_Z 100))).

(** Lines 45-49.  The row is an object array, so [row['ace_before']] is a
    [float] and the product has the class [c] of [capped_pct]. *)
Definition estimated (c : Py.float_class) (capped_pct before : F64.float) (score : Z)
  : F64.float :=
  if score =? -1 then before else Py.round c (product capped_pct before) 4.

(** What [process_file] returns, field by field. *)
Record Output := {
  table1 : DataFrame;
  table2 : DataFrame;
  avg_error : F64.float;
  avg_error_pct : F64.float;
  total_error : F64.float;
  capped_pct : F64.float;
  file1 : string;
  file2 : string
}.

Definition rows (before after : list F64.float) : list (F64.float * F64.float) :=
  combine before after.

(** [time_id] is the formatted clock reading of line 54; the frame is
    what [pd.read_excel] returned. *)
Definition process_file (time_id : string) (df : DataFrame) : stop + Output :=
  match get_col "ace_before" df, get_col "ace_after" df with
  | None, _ => inl (KeyError "ace_before")
  | Some _, None => inl (KeyError "ace_after")
  | Some (FloatCol before), Some (FloatCol after) =>
      let score := map (fun r => anomaly_score (fst r) (snd r)) (rows before after) in
      let df := set_col "anomaly_score" (IntCol score) df in
      let df := set_col "is_anomaly" (BoolCol (map is_anomaly score)) df in
      let df := set_col "more_or_less"
                  (ObjCol (map (fun r => more_or_less (fst r) (snd r)) (rows before after))) df in
      let err := map (fun r => error (fst r) (snd r)) (rows before after) in
      let df := set_col "error" (FloatCol err) df in
      let table1 := df in
      let avg_error := mean err in
      let avg_error_pct := F64.mul (F64.div avg_error (mean before)) (F64.of_Z 100) in
      let total_error := sum err in
      let capped_pct := Py.min avg_error_pct cap in
      let table2 :=
        set_col "estimated"
          (FloatCol (map (fun r => estimated (capped_class avg_error_pct) capped_pct
                                     (fst r) (snd r))
                         (combine before score)))
          table1 in
      inr {| table1 := table1;
             table2 := table2;
             avg_error := avg_error;
             avg_error_pct := avg_error_pct;
             total_error := total_error;
             capped_pct := capped_pct;
             file1 := ("output/table1_raw_" ++ time_id ++ ".xlsx")%string;
             file2 := ("output/table2_corrected_" ++ time_id ++ ".xlsx")%string |}
  | Some (FloatCol _), Some _ => inl (NotFloat64 "ace_after")
  | Some _, Some _ => inl (NotFloat64 "ace_before")
  end.

(** Cell access: the value of row [i] in the column [name], at its dtype. *)
Definition float_at (name : string) (i : nat) (df : DataFrame) : option F64.float :=
  match get_col name df with Some (FloatCol xs) => nth_error xs i | _ => None end.

Definition int_at (name : string) (i : nat) (df : DataFrame) : option Z :=
  match get_col name df with Some (IntCol ns) => nth_error ns i | _ => None end.

Definition bool_at (name : string) (i : nat) (df : DataFrame) : option bool :=
  match get_col name df with Some (BoolCol bs) => nth_error bs i | _ => None end.

Definition str_at (name : string) (i : nat) (df : DataFrame) : option string :=
  match get_col name df with Some (ObjCol ss) => nth_error ss i | _ => None end.

(** The names [process_file] assigns to. *)
Definition detection_columns : list string :=
  ["anomaly_score"; "is_anomaly"; "more_or_less"; "error"]%string.

Definition derived_columns : list string :=
  (detection_columns ++ ["estimated"%string])%list.

(** The columns a run computes from the two measurement columns. *)
Definition scores (before after : list F64.float) : list Z :=
  map (fun r => anomaly_score (fst r) (snd r)) (rows before after).

Definition directions (before after : list F64.float) : list string :=
  map (fun r => more_or_less (fst r) (snd r)) (rows before after).

Definition errors (before after : list F64.float) : list F64.float :=
  map (fun r => error (fst r) (snd r)) (rows before after).

Definition pct (before after : list F64.float) : F64.float :=
  F64.mul (F64.div (mean (errors before after)) (mean before)) (F64.of_Z 100).

Definition estimates (before after : list F64.float) : list F64.float :=
  map (fun r => estimated (capped_class (pct before after)) (Py.min (pct before after) cap)
                  (fst r) (snd r))
    (combine before (scores before after)).

Definition detect (before after : list F64.float) (df : DataFrame) : DataFrame :=
  set_col "error" (FloatCol (errors before after))
    (set_col "more_or_less" (ObjCol (directions before after))
       (set_col "is_anomaly" (BoolCol (map is_anomaly (scores before after)))
          (set_col "anomaly_score" (IntCol (scores before after)) df))).

(** A float as Python and Excel hold it: a canonical binary64 datum that
    is neither an infinity nor NaN. *)
Definition float64 (x : F64.float) : Prop :=
  F64.valid x = true /\ F64.is_finite x = true.

(** ** Values of floats *)

(** The exact value [m * 2^e * 10^4] of a finite float counted in steps of
    0.0001, as a fraction: numerator and denominator. *)
Definition steps_num (m : positive) (e : Z) : Z := Zpos m * 10 ^ 4 * 2 ^ Z.max e 0.
Definition steps_den (e : Z) : Z := 2 ^ Z.max (- e) 0.

(** The canonical exponent of a binary64 value of magnitude [x]. *)
Definition fe (x : Z) : Z := fexp F64.prec F64.emax x.

Definition canonical (m : positive) (e : Z) : Prop :=
  fe (Zpos (digits2_pos m) + e) = e.

(** [m1 * 2^e1 <= m2 * 2^e2], on integers. *)
Definition vle (m1 e1 m2 e2 : Z) : Prop :=
  m1 * 2 ^ (e1 - Z.min e1 e2) <= m2 * 2 ^ (e2 - Z.min e1 e2).

(** The mantissa of 1.0. *)
Definition one_m : positive := 4503599627370496.

(** ** Sample workbooks *)

(** Three rows: (10.0, 10.0), (10.0, 12.0) and (5.0, 4.0). *)
Definition scenario_frame : DataFrame :=
  [("timestamp", ObjCol ["t1"; "t2"; "t3"]);
   ("ace_before", FloatCol [F64.of_Z 10; F64.of_Z 10; F64.of_Z 5]);
   ("ace_after", FloatCol [F64.of_Z 10; F64.of_Z 12; F64.of_Z 4])]%string.

(** A sheet with its header and no data row. *)
Definition empty_frame : DataFrame :=
  [("timestamp", ObjCol []); ("ace_before", FloatCol []); ("ace_after", FloatCol [])]%string.

(** One row, both measurements 0.0. *)
Definition zero_frame : DataFrame :=
  [("timestamp", ObjCol ["2024-01-01 00:00:00"]);
   ("ace_before", FloatCol [F64.zero]);
   ("ace_after", FloatCol [F64.zero])]%string.

(** One row, before = 10.0 and after = 12.0, with a fourth input column
    that happens to be called [error]. *)
Definition collision_frame : DataFrame :=
  [("timestamp", ObjCol ["2024-01-01 00:00:00"]);
   ("ace_before", FloatCol [F64.of_Z 10]);
   ("ace_after", FloatCol [F64.of_Z 12]);
   ("error", ObjCol ["sensor fault"])]%string.

(** One row, before = 1.0 and after = 1.03125: the error percentage is
    3.125, below the ceiling, and before * (1 + 3.125/100) = 1.03125 lies
    halfway between 1.0312 and 1.0313. *)
Definition tie_frame : DataFrame :=
  [("timestamp", ObjCol ["2024-01-01 00:00:00"]);
   ("ace_before", FloatCol [F64.of_Z 1]);
   ("ace_after", FloatCol [F64.dyadic 33 5])]%string.

(** One row, before = 2^-15 and after = 0.0. *)
Definition small_frame : DataFrame :=
  [("timestamp", ObjCol ["2024-01-01 00:00:00"]);
   ("ace_before", FloatCol [F64.dyadic 1 15]);
   ("ace_after", FloatCol [F64.zero])]%string.

(** ** Notions for the further properties *)

(** [df.columns]: the column names, in order. *)
Definition names (df : DataFrame) : list string := map fst df.

Definition has_column (name : string) (df : DataFrame) : bool :=
  existsb (String.eqb name) (names df).

(** The names among [cols] that [df] does not have yet, in order. *)
Definition fresh (df : DataFrame) (cols : list string) : list string :=
  filter (fun n => negb (has_column n df)) cols.

(** Every column of the frame has [n] rows. *)
Definition has_height (n : nat) (df : DataFrame) : bool :=
  forallb (fun nc => Nat.eqb (height (snd nc)) n) df.


(** A float that is not NaN and carries the sign [s]. *)
Definition has_sign (s : bool) (x : F64.float) : Prop :=
  x = S754_zero s \/ x = S754_infinity s \/ exists m e, x = S754_finite s m e.

(** A float that is not NaN and does not carry the minus sign, but for
    the zero: [0.0], [-0.0], a positive finite value or [+inf]. *)
Definition nonneg (x : F64.float) : bool :=
  match x with
  | S754_zero _ => true
  | S754_infinity s | S754_finite s _ _ => negb s
  | S754_nan => false
  end.

(** A float that is not NaN and does not carry the plus sign, but for the
    zero. *)
Definition nonpos (x : F64.float) : bool :=
  match x with
  | S754_zero _ => true
  | S754_infinity s | S754_finite s _ _ => s
  | S754_nan => false
  end.

(** "more" and "less" exchanged. *)
Definition flip (d : string) : string :=
  if String.eqb d "more" then "less"%string
  else if String.eqb d "less" then "more"%string
  else d.

(** A row both of whose measurements are there (not NaN). *)
Definition measured (r : F64.float * F64.float) : bool :=
  notna (fst r) && notna (snd r).

(** [scenario_frame] with its two measurement columns exchanged. *)
Definition exchanged_frame : DataFrame :=
  [("timestamp", ObjCol ["t1"; "t2"; "t3"]);
   ("ace_before", FloatCol [F64.of_Z 10; F64.of_Z 12; F64.of_Z 4]);
   ("ace_after", FloatCol [F64.of_Z 10; F64.of_Z 10; F64.of_Z 5])]%string.

(** Two rows, after equal to before on both. *)
Definition unchanged_frame : DataFrame :=
  [("timestamp", ObjCol ["t1"; "t2"]);
   ("ace_before", FloatCol [F64.of_Z 10; F64.dyadic 21 2]);
   ("ace_after", FloatCol [F64.of_Z 10; F64.dyadic 21 2])]%string.

(** Two rows, (10.0, 12.0) and (NaN, 4.0): an empty cell in the sheet. *)
Definition nan_frame : DataFrame :=
  [("timestamp", ObjCol ["t1"; "t2"]);
   ("ace_before", FloatCol [F64.of_Z 10; F64.nan]);
   ("ace_after", FloatCol [F64.of_Z 12; F64.of_Z 4])]%string.

(** Two rows, (10.0, 10.0) and (-5.0, -4.0): the mean of before is 2.5. *)
Definition negative_frame : DataFrame :=
  [("timestamp", ObjCol ["t1"; "t2"]);
   ("ace_before", FloatCol [F64.of_Z 10; F64.of_Z (-5)]);
   ("ace_after", FloatCol [F64.of_Z 10; F64.of_Z (-4)])]%string.

(** Two rows, (1.0, 2.0) and (-1.0, -1.0): the mean of before is 0.0. *)
Definition cancelling_frame : DataFrame :=
  [("timestamp", ObjCol ["t1"; "t2"]);
   ("ace_before", FloatCol [F64.of_Z 1; F64.of_Z (-1)]);
   ("ace_after", FloatCol [F64.of_Z 2; F64.of_Z (-1)])]%string.

(** No measurement column at all. *)
Definition bare_frame : DataFrame :=
  [("timestamp", ObjCol ["t1"])]%string.

(** An integer before column and no after column. *)
Definition lone_frame : DataFrame :=
  [("timestamp", ObjCol ["t1"]); ("ace_before", IntCol [10])]%string.

(** Two rows, (0.125, 0.625) and (19.875, 20.375): the mean error is 0.5,
    the mean of before is 10.0 and the error percentage is 5.0 exactly. *)
Definition ceiling_frame : DataFrame :=
  [("timestamp", ObjCol ["t1"; "t2"]);
   ("ace_before", FloatCol [F64.dyadic 1 3; F64.dyadic 159 3]);
   ("ace_after", FloatCol [F64.dyadic 5 3; F64.dyadic 163 3])]%string.

(** The same before column with the errors 0.5 and 1.5: the error
    percentage is 10.0, above the ceiling. *)
Definition above_frame : DataFrame :=
  [("timestamp", ObjCol ["t1"; "t2"]);
   ("ace_before", FloatCol [F64.dyadic 1 3; F64.dyadic 159 3]);
   ("ace_after", FloatCol [F64.dyadic 5 3; F64.dyadic 171 3])]%string.

(** One row, before = 1.0 and after = 1.00025 as a float, which lies just
    above the decimal 1.00025. *)
Definition near_tie_frame : DataFrame :=
  [("timestamp", ObjCol ["t1"]);
   ("ace_before", FloatCol [F64.of_Z 1]);
   ("ace_after", FloatCol [Py.nearest_decimal false 100025 5])]%string.

(** One row, before = 2^1012 and after the next float above it. *)
Definition huge_frame : DataFrame :=
  [("timestamp", ObjCol ["t1"]);
   ("ace_before", FloatCol [S754_finite false 4503599627370496 960]);
   ("ace_after", FloatCol [S754_finite false 4503599627370497 960])]%string.

(** Four rows with before = 2000000000000.09375 = 64000000000003 / 32,
    the first with after one float above it. *)
Definition large_tie_frame : DataFrame :=
  [("timestamp", ObjCol ["t1"; "t2"; "t3"; "t4"]);
   ("ace_before", FloatCol [F64.dyadic 64000000000003 5; F64.dyadic 64000000000003 5;
                            F64.dyadic 64000000000003 5; F64.dyadic 64000000000003 5]);
   ("ace_after", FloatCol [F64.dyadic 8192000000000385 12; F64.dyadic 64000000000003 5;
                           F64.dyadic 64000000000003 5; F64.dyadic 64000000000003 5])]%string.


(** Three rows, (-2^-1074, 1.0), (0.0, 0.0) and (0.0, 0.0): the mean of
    before is -0.0. *)
Definition negative_zero_frame : DataFrame :=
  [("timestamp", ObjCol ["t1"; "t2"; "t3"]);
   ("ace_before", FloatCol [S754_finite true 1 (-1074); F64.zero; F64.zero]);
   ("ace_after", FloatCol [F64.of_Z 1; F64.zero; F64.zero])]%string.

(** ** Frames: reading after writing *)

Lemma get_set_eq name c df : get_col name (set_col name c df) = Some c.
Proof.
  induction df as [|[n c0] rest IH]; simpl.
  - now rewrite String.eqb_refl.
  - destruct (String.eqb n name) eqn:E; simpl; rewrite E; auto.
Qed.

Lemma get_set_ne name other c df :
  other <> name -> get_col name (set_col other c df) = get_col name df.
Proof.
  intros Hne.
  assert (Hf : String.eqb other name = false) by now apply String.eqb_neq.
  induction df as [|[n c0] rest IH]; simpl.
  - now rewrite Hf.
  - destruct (String.eqb n other) eqn:E; simpl.
    + apply String.eqb_eq in E; subst n. now rewrite Hf.
    + destruct (String.eqb n name); auto.
Qed.

Lemma set_same name c df : get_col name df = Some c -> set_col name c df = df.
Proof.
  induction df as [|[n c0] rest IH]; simpl; [discriminate|].
  destruct (String.eqb n name) eqn:E; intros H.
  - now inversion H.
  - now rewrite IH.
Qed.

Ltac frame := repeat first [rewrite get_set_eq | rewrite get_set_ne by discriminate].

(** ** Rows *)

Lemma nth_error_combine {A B} (xs : list A) (ys : list B) i x y :
  nth_error xs i = Some x -> nth_error ys i = Some y ->
  nth_error (combine xs ys) i = Some (x, y).
Proof.
  revert ys i. induction xs as [|x0 xs IH]; intros [|y0 ys] [|i]; simpl;
    try discriminate.
  - now intros [= ->] [= ->].
  - apply IH.
Qed.

Lemma nth_error_rows_map {C} (f : F64.float * F64.float -> C) before after i b a :
  nth_error before i = Some b -> nth_error after i = Some a ->
  nth_error (map f (rows before after)) i = Some (f (b, a)).
Proof.
  intros Hb Ha. apply map_nth_error. now apply nth_error_combine.
Qed.

Lemma float_at_get name i df x :
  float_at name i df = Some x ->
  exists xs, get_col name df = Some (FloatCol xs) /\ nth_error xs i = Some x.
Proof.
  unfold float_at. destruct (get_col name df) as [[xs| | | ]|]; try discriminate.
  intros H. now exists xs.
Qed.

(** ** Order of binary64 values *)

Lemma SFcompare_antisym (x y : F64.float) :
  SFcompare y x = option_map CompOpp (SFcompare x y).
Proof.
  destruct x as [sx|sx| |sx mx ex], y as [sy|sy| |sy my ey]; simpl;
    try reflexivity;
    try (destruct sx; reflexivity); try (destruct sy; reflexivity);
    try (destruct sx, sy; reflexivity).
  pose proof (Pos.compare_cont_antisym mx my Eq) as Hm. simpl in Hm.
  destruct sx, sy; simpl; try reflexivity;
    rewrite (Z.compare_antisym ex ey);
    destruct (ex ?= ey); simpl; try reflexivity; now rewrite <- Hm.
Qed.

Lemma ltb_compare x y : F64.ltb x y = true <-> SFcompare x y = Some Lt.
Proof.
  unfold F64.ltb, SFltb. destruct (SFcompare x y) as [[ | | ]|]; split;
    congruence.
Qed.

Lemma gt_compare x y : Py.gt x y = true <-> SFcompare x y = Some Gt.
Proof.
  unfold Py.gt. rewrite ltb_compare, (SFcompare_antisym x y).
  destruct (SFcompare x y) as [[ | | ]|]; simpl; split; congruence.
Qed.

Lemma ne_compare x y : Py.ne x y = false <-> SFcompare x y = Some Eq.
Proof.
  unfold Py.ne, F64.eqb, SFeqb. destruct (SFcompare x y) as [[ | | ]|]; simpl;
    split; congruence.
Qed.

Lemma leb_compare x y :
  F64.leb x y = true <-> SFcompare x y = Some Lt \/ SFcompare x y = Some Eq.
Proof.
  unfold F64.leb, SFleb. destruct (SFcompare x y) as [[ | | ]|]; split;
    intros H; try tauto; try discriminate; destruct H; discriminate.
Qed.

Lemma compare_finite x y :
  F64.is_finite x = true -> F64.is_finite y = true ->
  exists c, SFcompare x y = Some c.
Proof.
  destruct x, y; simpl; try discriminate; eauto.
Qed.

Lemma ltb_asym x y : F64.ltb x y = true -> F64.ltb y x = false.
Proof.
  intros H. apply ltb_compare in H.
  unfold F64.ltb, SFltb. now rewrite (SFcompare_antisym x y), H.
Qed.

Lemma not_ltb_leb x y :
  F64.is_nan x = false -> F64.is_nan y = false ->
  F64.ltb y x = false -> F64.leb x y = true.
Proof.
  intros Hx Hy H. apply leb_compare.
  assert (Hc : exists c, SFcompare y x = Some c)
    by (destruct x, y; simpl in *; try discriminate; eauto).
  destruct Hc as [c Hc]. rewrite (SFcompare_antisym y x), Hc.
  unfold F64.ltb, SFltb in H. rewrite Hc in H.
  destruct c; simpl; auto; discriminate.
Qed.

Lemma leb_not_nan x y : F64.leb x y = true -> F64.is_nan y = false.
Proof.
  unfold F64.leb, SFleb. destruct x, y; simpl; auto; discriminate.
Qed.

Lemma ltb_zero_inv x :
  F64.ltb F64.zero x = true ->
  x = S754_infinity false \/ exists m e, x = S754_finite false m e.
Proof.
  unfold F64.ltb, SFltb. destruct x as [s|[|]| |[|] m e]; simpl; try discriminate; eauto.
Qed.

Lemma eqb_zero x : F64.eqb x F64.zero = true -> exists s, x = S754_zero s.
Proof.
  unfold F64.eqb, SFeqb. destruct x as [s|s| |s m e]; simpl; try discriminate; eauto;
    destruct s; discriminate.
Qed.

Lemma compare_same s m e :
  SFcompare (S754_finite s m e) (S754_finite s m e) = Some Eq.
Proof.
  simpl. destruct s; now rewrite Z.compare_refl, Pos.compare_cont_refl.
Qed.

(** ** Mantissas: digits and shifts *)

Lemma pow2_pos k : 0 <= k -> 0 < 2 ^ k.
Proof. intros. apply Z.pow_pos_nonneg; lia. Qed.

Lemma pow2_split a b : 0 <= a -> 0 <= b -> 2 ^ (a + b) = 2 ^ a * 2 ^ b.
Proof. intros. apply Z.pow_add_r; lia. Qed.

Lemma pow2_xO p : 2 ^ Zpos p~0 = 2 ^ Zpos p * 2 ^ Zpos p.
Proof. rewrite <- Z.pow_add_r by lia. f_equal. lia. Qed.

Lemma pow2_xI p : 2 ^ Zpos p~1 = 2 * (2 ^ Zpos p * 2 ^ Zpos p).
Proof. rewrite <- Z.pow_add_r, <- Z.pow_succ_r by lia. f_equal. lia. Qed.

Lemma pow2_lt_inv a b : 2 ^ a < 2 ^ b -> 0 <= b -> a < b.
Proof.
  intros H Hb. destruct (Z.lt_ge_cases a b) as [|Hge]; auto.
  assert (2 ^ b <= 2 ^ a) by (apply Z.pow_le_mono_r; lia). lia.
Qed.

Lemma digits2_bounds p :
  2 ^ (Zpos (digits2_pos p) - 1) <= Zpos p < 2 ^ Zpos (digits2_pos p).
Proof.
  induction p as [p IH|p IH|]; simpl digits2_pos.
  - rewrite Pos2Z.inj_succ.
    replace (Z.succ (Zpos (digits2_pos p)) - 1) with (Z.succ (Zpos (digits2_pos p) - 1)) by lia.
    rewrite !Z.pow_succ_r by lia. lia.
  - rewrite Pos2Z.inj_succ.
    replace (Z.succ (Zpos (digits2_pos p)) - 1) with (Z.succ (Zpos (digits2_pos p) - 1)) by lia.
    rewrite !Z.pow_succ_r by lia. lia.
  - simpl. lia.
Qed.

Lemma digits_unique m k :
  2 ^ (k - 1) <= Zpos m < 2 ^ k -> Zpos (digits2_pos m) = k.
Proof.
  intros [Hlo Hhi]. pose proof (digits2_bounds m) as [Dlo Dhi].
  assert (Hd : 0 < Zpos (digits2_pos m)) by lia.
  remember (Zpos (digits2_pos m)) as d eqn:E in *. clear E.
  destruct (Z.lt_trichotomy d k) as [H|[H|H]]; auto.
  - assert (2 ^ d <= 2 ^ (k - 1)) by (apply Z.pow_le_mono_r; lia). lia.
  - assert (2 ^ k <= 2 ^ (d - 1)) by (apply Z.pow_le_mono_r; lia). lia.
Qed.

Lemma digits_mono a b :
  (a <= b)%positive -> Zpos (digits2_pos a) <= Zpos (digits2_pos b).
Proof.
  intros H. pose proof (digits2_bounds a) as [Alo _].
  pose proof (digits2_bounds b) as [_ Bhi].
  assert (Hlt : 2 ^ (Zpos (digits2_pos a) - 1) < 2 ^ Zpos (digits2_pos b)) by lia.
  apply pow2_lt_inv in Hlt; lia.
Qed.

Lemma digits_mul_ge m1 m2 :
  Zpos (digits2_pos m1) + Zpos (digits2_pos m2) - 1 <= Zpos (digits2_pos (m1 * m2)).
Proof.
  pose proof (digits2_bounds m1) as [L1 _]. pose proof (digits2_bounds m2) as [L2 _].
  pose proof (digits2_bounds (m1 * m2)) as [_ U].
  assert (0 < Zpos (digits2_pos m1) /\ 0 < Zpos (digits2_pos m2)) as [P1 P2] by lia.
  remember (Zpos (digits2_pos m1)) as d1 eqn:E1 in *.
  remember (Zpos (digits2_pos m2)) as d2 eqn:E2 in *.
  remember (Zpos (digits2_pos (m1 * m2))) as d eqn:E in *.
  assert (Hd : 0 < d) by lia. clear E1 E2 E.
  assert (H : 2 ^ ((d1 - 1) + (d2 - 1)) < 2 ^ d).
  { rewrite pow2_split by lia. rewrite Pos2Z.inj_mul in U.
    assert (0 < 2 ^ (d1 - 1)) by (apply pow2_pos; lia).
    assert (0 < 2 ^ (d2 - 1)) by (apply pow2_pos; lia). nia. }
  apply pow2_lt_inv in H; lia.
Qed.

Lemma iter_xO_val m d : Zpos (Pos.iter xO m d) = Zpos m * 2 ^ Zpos d.
Proof.
  induction d as [|d IH] using Pos.peano_ind.
  - simpl. lia.
  - rewrite Pos.iter_succ, Pos2Z.inj_xO, IH, Pos2Z.inj_succ, Z.pow_succ_r by lia. lia.
Qed.

Lemma iter_xO_digits m d :
  Zpos (digits2_pos (Pos.iter xO m d)) = Zpos (digits2_pos m) + Zpos d.
Proof.
  induction d as [|d IH] using Pos.peano_ind.
  - simpl. lia.
  - rewrite Pos.iter_succ. simpl digits2_pos. rewrite Pos2Z.inj_succ, IH. lia.
Qed.

Lemma shl_align_val m e e' :
  e' <= e -> Zpos (fst (shl_align m e e')) = Zpos m * 2 ^ (e - e').
Proof.
  intros H. unfold shl_align. destruct (e' - e) as [|d|d] eqn:E; cbn [fst snd].
  - replace (e - e') with 0 by lia. rewrite Z.pow_0_r. lia.
  - lia.
  - rewrite iter_xO_val. replace (e - e') with (Zpos d) by lia. reflexivity.
Qed.

Lemma shl_align_digits m e e' :
  e' <= e ->
  Zpos (digits2_pos (fst (shl_align m e e'))) = Zpos (digits2_pos m) + (e - e').
Proof.
  intros H. unfold shl_align. destruct (e' - e) as [|d|d] eqn:E; cbn [fst snd].
  - lia.
  - lia.
  - rewrite iter_xO_digits. lia.
Qed.

Lemma shl_align_exp m e e' : snd (shl_align m e e') = Z.min e e'.
Proof.
  unfold shl_align. destruct (e' - e) as [|d|d] eqn:E; cbn [fst snd]; lia.
Qed.

Lemma shl_align_spec m e e' :
  snd (shl_align m e e') = Z.min e e' /\
  Zpos (fst (shl_align m e e')) = Zpos m * 2 ^ (e - Z.min e e') /\
  Zpos (digits2_pos (fst (shl_align m e e'))) = Zpos (digits2_pos m) + (e - Z.min e e').
Proof.
  split; [apply shl_align_exp|].
  destruct (Z.le_gt_cases e' e) as [H|H].
  - rewrite Z.min_r by lia. split; [now apply shl_align_val | now apply shl_align_digits].
  - rewrite Z.min_l, Z.sub_diag, Z.pow_0_r by lia.
    unfold shl_align. destruct (e' - e) as [|d|d] eqn:E; cbn [fst]; lia.
Qed.

(** ** Right shifts and rounding: sign and zero *)

Lemma shr_1_m r : 0 <= shr_m r -> shr_m (shr_1 r) = shr_m r / 2.
Proof.
  destruct r as [m b s]. cbn [shr_m]. intros Hm.
  destruct m as [|[p|p|]|p]; cbn [shr_1 shr_m]; try lia.
  - reflexivity.
  - apply Z.div_unique with 1; [lia|]. rewrite Pos2Z.inj_xI. lia.
  - apply Z.div_unique with 0; [lia|]. rewrite Pos2Z.inj_xO. lia.
  - reflexivity.
Qed.

Lemma iter_shr_1_m p : forall r,
  0 <= shr_m r -> shr_m (iter_pos shr_1 p r) = shr_m r / 2 ^ Zpos p.
Proof.
  assert (Hpow : forall q, 0 < 2 ^ Zpos q) by (intros; apply Z.pow_pos_nonneg; lia).
  assert (Hstep : forall r, 0 <= shr_m r -> 0 <= shr_m (shr_1 r)).
  { intros r Hr. rewrite shr_1_m by auto. apply Z.div_pos; lia. }
  induction p as [p IH|p IH|]; intros r Hr; simpl iter_pos.
  - assert (H1 : 0 <= shr_m (iter_pos shr_1 p (shr_1 r))).
    { rewrite IH by auto. apply Z.div_pos; auto. }
    rewrite IH, IH, shr_1_m by auto.
    rewrite !Z.div_div by (try apply Z.pow_nonzero; auto; lia).
    now rewrite pow2_xI, Z.mul_assoc.
  - assert (H1 : 0 <= shr_m (iter_pos shr_1 p r)).
    { rewrite IH by auto. apply Z.div_pos; auto. }
    rewrite IH, IH by auto.
    rewrite !Z.div_div by (try apply Z.pow_nonzero; auto; lia).
    now rewrite pow2_xO.
  - now rewrite shr_1_m.
Qed.

Lemma shr_record_of_loc_m m l : shr_m (shr_record_of_loc m l) = m.
Proof. destruct l as [|[ | | ]]; reflexivity. Qed.

Lemma fexp_ge_emin e : SpecFloat.emin F64.prec F64.emax <= fexp F64.prec F64.emax e.
Proof. unfold fexp. lia. Qed.

Lemma fe_eq x : fe x = Z.max (x - 53) (-1074).
Proof. reflexivity. Qed.

Lemma fe_mono x y : x <= y -> fe x <= fe y.
Proof. rewrite !fe_eq. lia. Qed.

(** [shr_fexp] on a mantissa that is not negative. *)
Lemma shr_fexp_nonneg m e l :
  0 <= m -> 0 <= shr_m (fst (shr_fexp F64.prec F64.emax m e l)).
Proof.
  intros Hm. unfold shr_fexp, shr.
  destruct (fexp F64.prec F64.emax (Zdigits2 m + e) - e) as [|p|p]; cbn [fst];
    rewrite ?iter_shr_1_m, shr_record_of_loc_m; rewrite ?shr_record_of_loc_m; auto.
  apply Z.div_pos; auto. apply Z.pow_pos_nonneg; lia.
Qed.

(** At or above the least exponent, a right shift leaves at least one
    digit of a positive mantissa. *)
Lemma shr_fexp_pos m e l :
  0 < m -> SpecFloat.emin F64.prec F64.emax <= e ->
  0 < shr_m (fst (shr_fexp F64.prec F64.emax m e l)) /\
  SpecFloat.emin F64.prec F64.emax <= snd (shr_fexp F64.prec F64.emax m e l).
Proof.
  intros Hm He. unfold shr_fexp, shr.
  destruct (fexp F64.prec F64.emax (Zdigits2 m + e) - e) as [|p|p] eqn:E; cbn [fst snd];
    rewrite ?shr_record_of_loc_m; try (split; [lia|lia]).
  rewrite iter_shr_1_m by (rewrite shr_record_of_loc_m; lia).
  rewrite shr_record_of_loc_m.
  destruct m as [|m|m]; try lia. cbn [Zdigits2] in E.
  pose proof (digits2_bounds m) as [Hlo Hhi].
  unfold fexp, SpecFloat.emin, F64.prec, F64.emax in *. split.
  - apply Z.div_str_pos. split; [apply Z.pow_pos_nonneg; lia|].
    eapply Z.le_trans; [|exact Hlo]. apply Z.pow_le_mono_r; lia.
  - lia.
Qed.

Lemma round_nearest_even_ge m l : m <= round_nearest_even m l.
Proof. destruct l as [|[ | | ]]; simpl; try lia. destruct (Z.even m); lia. Qed.

(** Rounding never changes the sign, and a positive mantissa at or above
    the least exponent does not round to zero. *)
Lemma round_aux_sign s m e l :
  0 <= m ->
  binary_round_aux F64.prec F64.emax s m e l = S754_zero s \/
  binary_round_aux F64.prec F64.emax s m e l = S754_infinity s \/
  exists m' e', binary_round_aux F64.prec F64.emax s m e l = S754_finite s m' e'.
Proof.
  intros Hm. unfold binary_round_aux.
  pose proof (shr_fexp_nonneg m e l Hm) as H1.
  destruct (shr_fexp F64.prec F64.emax m e l) as [mrs' e'] eqn:E1. cbn [fst] in H1.
  pose proof (round_nearest_even_ge (shr_m mrs') (loc_of_shr_record mrs')) as Hr.
  pose proof (shr_fexp_nonneg (round_nearest_even (shr_m mrs') (loc_of_shr_record mrs'))
                e' loc_Exact ltac:(lia)) as H2.
  destruct (shr_fexp F64.prec F64.emax _ e' loc_Exact) as [mrs'' e''] eqn:E2.
  cbn [fst] in H2.
  destruct (shr_m mrs'') as [|p|p]; try lia; auto.
  destruct (e'' <=? F64.emax - F64.prec); eauto.
Qed.

Lemma round_aux_nonzero s m e l :
  0 < m -> SpecFloat.emin F64.prec F64.emax <= e ->
  binary_round_aux F64.prec F64.emax s m e l = S754_infinity s \/
  exists m' e', binary_round_aux F64.prec F64.emax s m e l = S754_finite s m' e'.
Proof.
  intros Hm He. unfold binary_round_aux.
  pose proof (shr_fexp_pos m e l Hm He) as [H1 H1e].
  destruct (shr_fexp F64.prec F64.emax m e l) as [mrs' e'] eqn:E1. cbn [fst snd] in *.
  pose proof (round_nearest_even_ge (shr_m mrs') (loc_of_shr_record mrs')) as Hr.
  pose proof (shr_fexp_pos (round_nearest_even (shr_m mrs') (loc_of_shr_record mrs'))
                e' loc_Exact ltac:(lia) H1e) as [H2 _].
  destruct (shr_fexp F64.prec F64.emax _ e' loc_Exact) as [mrs'' e''] eqn:E2.
  cbn [fst] in H2.
  destruct (shr_m mrs'') as [|p|p]; try lia.
  destruct (e'' <=? F64.emax - F64.prec); eauto.
Qed.

Lemma binary_round_nonzero s m e :
  SpecFloat.emin F64.prec F64.emax <= e ->
  binary_round F64.prec F64.emax s m e = S754_infinity s \/
  exists m' e', binary_round F64.prec F64.emax s m e = S754_finite s m' e'.
Proof.
  intros He. unfold binary_round.
  pose proof (shl_align_exp m e (fexp F64.prec F64.emax (Zpos (digits2_pos m) + e))) as Hs.
  destruct (shl_align m e _) as [mz ez]. cbn [snd] in Hs.
  apply round_aux_nonzero; [lia|].
  pose proof (fexp_ge_emin (Zpos (digits2_pos m) + e)). lia.
Qed.

(** ** The difference of two distinct binary64 values is not zero *)

Lemma valid_finite_inv s m e :
  F64.valid (S754_finite s m e) = true ->
  fexp F64.prec F64.emax (Zpos (digits2_pos m) + e) = e /\
  SpecFloat.emin F64.prec F64.emax <= e.
Proof.
  unfold F64.valid, valid_binary, bounded, canonical_mantissa.
  intros H. apply andb_prop in H. destruct H as [H _].
  apply Z.eqb_eq in H. split; [exact H|].
  rewrite <- H. apply fexp_ge_emin.
Qed.

Lemma valid_canonical s m e : F64.valid (S754_finite s m e) = true -> canonical m e.
Proof. intros H. now apply valid_finite_inv in H. Qed.

Lemma aligned_equal sx mx ex sy my ey :
  F64.valid (S754_finite sx mx ex) = true ->
  F64.valid (S754_finite sy my ey) = true ->
  fst (shl_align mx ex (Z.min ex ey)) = fst (shl_align my ey (Z.min ex ey)) ->
  ex = ey /\ mx = my.
Proof.
  intros Hx Hy Heq.
  apply valid_finite_inv in Hx. apply valid_finite_inv in Hy.
  destruct Hx as [Hx _], Hy as [Hy _].
  pose proof (shl_align_digits mx ex (Z.min ex ey) ltac:(lia)) as Dx.
  pose proof (shl_align_digits my ey (Z.min ex ey) ltac:(lia)) as Dy.
  pose proof (shl_align_val mx ex (Z.min ex ey) ltac:(lia)) as Vx.
  pose proof (shl_align_val my ey (Z.min ex ey) ltac:(lia)) as Vy.
  rewrite Heq in Dx, Vx.
  assert (Hd : Zpos (digits2_pos mx) + ex = Zpos (digits2_pos my) + ey) by lia.
  rewrite Hd in Hx. assert (He : ex = ey) by congruence. split; [exact He|].
  subst ey. rewrite Z.min_id, Z.sub_diag, Z.pow_0_r in Vx, Vy. lia.
Qed.

Lemma sub_distinct x y :
  float64 x -> float64 y -> SFcompare x y <> Some Eq ->
  (exists s, F64.sub x y = S754_infinity s) \/
  (exists s m e, F64.sub x y = S754_finite s m e).
Proof.
  intros [Vx Fx] [Vy Fy] Hne.
  destruct x as [sx|sx| |sx mx ex], y as [sy|sy| |sy my ey];
    try discriminate Fx; try discriminate Fy.
  - now elim Hne.
  - right. simpl. eauto.
  - right. simpl. eauto.
  - unfold F64.sub, SFsub.
    set (X := Zpos (fst (shl_align mx ex (Z.min ex ey)))).
    set (Y := Zpos (fst (shl_align my ey (Z.min ex ey)))).
    assert (Hmin : SpecFloat.emin F64.prec F64.emax <= Z.min ex ey).
    { apply valid_finite_inv in Vx, Vy. lia. }
    assert (HD : cond_Zopp sx X - cond_Zopp sy Y <> 0).
    { intros HD.
      assert (0 < X /\ 0 < Y) as [HX HY] by (subst X Y; split; reflexivity).
      assert (sx = sy /\ X = Y) as [-> HXY]
        by (destruct sx, sy; unfold cond_Zopp in HD; split; auto; lia).
      subst X Y. injection HXY as HXY.
      destruct (aligned_equal _ _ _ _ _ _ Vx Vy HXY) as [-> ->].
      apply Hne, compare_same. }
    destruct (cond_Zopp sx X - cond_Zopp sy Y) as [|d|d]; [congruence| |];
      cbn [binary_normalize].
    + destruct (binary_round_nonzero false d _ Hmin) as [H|(m' & e' & H)];
        rewrite H; eauto.
    + destruct (binary_round_nonzero true d _ Hmin) as [H|(m' & e' & H)];
        rewrite H; eauto.
Qed.

(** ** Rounding keeps lower bounds that are floats themselves *)

Lemma vle_offset K m1 e1 m2 e2 :
  - K <= e1 -> - K <= e2 ->
  (vle m1 e1 m2 e2 <-> m1 * 2 ^ (e1 + K) <= m2 * 2 ^ (e2 + K)).
Proof.
  intros H1 H2. unfold vle.
  remember (Z.min e1 e2) as lo eqn:Hlo.
  assert (lo <= e1 /\ lo <= e2 /\ - K <= lo) as (L1 & L2 & L3) by lia. clear Hlo.
  replace (e1 + K) with ((e1 - lo) + (lo + K)) by lia.
  replace (e2 + K) with ((e2 - lo) + (lo + K)) by lia.
  rewrite (pow2_split (e1 - lo)), (pow2_split (e2 - lo)) by lia.
  assert (Hp : 0 < 2 ^ (lo + K)) by (apply pow2_pos; lia).
  rewrite !Z.mul_assoc. split; intros H.
  - apply Z.mul_le_mono_nonneg_r; lia.
  - apply Z.mul_le_mono_pos_r in H; auto.
Qed.

Lemma vle_mono_r m1 e1 m2 m2' e2 : m2 <= m2' -> vle m1 e1 m2 e2 -> vle m1 e1 m2' e2.
Proof.
  unfold vle. intros Hm H.
  assert (0 < 2 ^ (e2 - Z.min e1 e2)) by (apply pow2_pos; lia).
  nia.
Qed.

(** The magnitude [digits m + e] grows with the value. *)
Lemma magnitude_mono m1 e1 m2 e2 :
  vle (Zpos m1) e1 (Zpos m2) e2 ->
  Zpos (digits2_pos m1) + e1 <= Zpos (digits2_pos m2) + e2.
Proof.
  intros H. remember (Z.max (- e1) (- e2)) as K eqn:HK.
  assert (- K <= e1 /\ - K <= e2) as [K1 K2] by lia. clear HK.
  apply (vle_offset K) in H; try lia.
  pose proof (digits2_bounds m1) as [Alo _].
  pose proof (digits2_bounds m2) as [_ Bhi].
  assert (0 < Zpos (digits2_pos m1) /\ 0 < Zpos (digits2_pos m2)) as [Hd1 Hd2] by lia.
  remember (Zpos (digits2_pos m1)) as d1 eqn:E1 in *.
  remember (Zpos (digits2_pos m2)) as d2 eqn:E2 in *. clear E1 E2.
  assert (H1 : 2 ^ (d1 - 1 + (e1 + K)) <= Zpos m1 * 2 ^ (e1 + K)).
  { rewrite (pow2_split (d1 - 1)) by lia. apply Z.mul_le_mono_nonneg_r; [|lia].
    apply Z.lt_le_incl, pow2_pos. lia. }
  assert (H2 : Zpos m2 * 2 ^ (e2 + K) < 2 ^ (d2 + (e2 + K))).
  { rewrite (pow2_split d2) by lia.
    apply Z.mul_lt_mono_pos_r; [apply pow2_pos; lia | lia]. }
  assert (Hlt : 2 ^ (d1 - 1 + (e1 + K)) < 2 ^ (d2 + (e2 + K))) by lia.
  apply pow2_lt_inv in Hlt; lia.
Qed.

(** A right shift to the canonical exponent stays above every canonical
    float below the value shifted. *)
Lemma shr_fexp_lower M E l m0 e0 :
  E <= fe (Zpos (digits2_pos M) + E) ->
  canonical m0 e0 ->
  vle (Zpos m0) e0 (Zpos M) E ->
  exists M',
    shr_m (fst (shr_fexp F64.prec F64.emax (Zpos M) E l)) = Zpos M' /\
    canonical M' (snd (shr_fexp F64.prec F64.emax (Zpos M) E l)) /\
    vle (Zpos m0) e0 (Zpos M') (snd (shr_fexp F64.prec F64.emax (Zpos M) E l)).
Proof.
  intros HE C0 Hv. unfold shr_fexp, shr. cbn [Zdigits2]. fold (fe (Zpos (digits2_pos M) + E)).
  pose proof (magnitude_mono _ _ _ _ Hv) as Hmag.
  pose proof (digits2_bounds M) as [Mlo Mhi].
  pose proof (digits2_bounds m0) as [m0lo m0hi].
  unfold canonical in *.
  pose proof (fe_mono _ _ Hmag) as Hfe. rewrite C0 in Hfe.
  remember (Zpos (digits2_pos M)) as d eqn:Ed in *.
  remember (Zpos (digits2_pos m0)) as d0 eqn:Ed0 in *.
  assert (0 < d /\ 0 < d0) as [Hd Hd0] by lia.
  remember (fe (d + E)) as g eqn:Eg in *.
  destruct (g - E) as [|p|p] eqn:En; cbn [fst snd]; try lia.
  - rewrite shr_record_of_loc_m. exists M. rewrite <- Ed, <- Eg.
    repeat split; auto. lia.
  - rewrite iter_shr_1_m by (rewrite shr_record_of_loc_m; lia).
    rewrite shr_record_of_loc_m.
    replace (E + Zpos p) with g by lia.
    remember (Z.max (- e0) (- E)) as K eqn:HK.
    assert (- K <= e0 /\ - K <= E) as [K0 K1] by lia. clear HK.
    apply (vle_offset K) in Hv; try lia.
    assert (Hp : 0 < 2 ^ Zpos p) by (apply pow2_pos; lia).
    assert (HgK : 2 ^ (g + K) = 2 ^ Zpos p * 2 ^ (E + K)).
    { rewrite <- pow2_split by lia. f_equal. lia. }
    assert (HEK : 0 < 2 ^ (E + K)) by (apply pow2_pos; lia).
    assert (Hlow : Zpos m0 * 2 ^ (e0 + K) <= (Zpos M / 2 ^ Zpos p) * 2 ^ (g + K)).
    { destruct (Z.eq_dec e0 g) as [->|Hne].
      - apply Z.mul_le_mono_nonneg_r; [lia|].
        apply Z.div_le_lower_bound; auto. rewrite HgK in Hv. nia.
      - rewrite fe_eq in Eg, C0.
        assert (Hg : g = d + E - 53) by lia.
        assert (Hpd : Zpos p = d - 53) by lia.
        assert (H52 : 2 ^ 52 <= Zpos M / 2 ^ Zpos p).
        { apply Z.div_le_lower_bound; auto. rewrite <- pow2_split by lia.
          replace (Zpos p + 52) with (d - 1) by lia. exact Mlo. }
        assert (Hup : Zpos m0 * 2 ^ (e0 + K) < 2 ^ (d0 + (e0 + K))).
        { rewrite (pow2_split d0) by lia.
          apply Z.mul_lt_mono_pos_r; [apply pow2_pos; lia | lia]. }
        assert (Hle : 2 ^ (d0 + (e0 + K)) <= 2 ^ (52 + (g + K)))
          by (apply Z.pow_le_mono_r; lia).
        rewrite (pow2_split 52) in Hle by lia.
        assert (0 < 2 ^ (g + K)) by (apply pow2_pos; lia).
        nia. }
    assert (HM1 : 0 < Zpos M / 2 ^ Zpos p).
    { assert (0 < Zpos m0 * 2 ^ (e0 + K)).
      { apply Z.mul_pos_pos; [lia|]. apply pow2_pos; lia. }
      assert (0 < 2 ^ (g + K)) by (apply pow2_pos; lia).
      nia. }
    destruct (Zpos M / 2 ^ Zpos p) as [|M'|M'] eqn:EM'; try lia.
    exists M'. split; [reflexivity|].
    assert (Hpd : Zpos p < d).
    { assert (2 ^ Zpos p <= Zpos M).
      { destruct (Z.lt_ge_cases (Zpos M) (2 ^ Zpos p)) as [Hlt|]; auto.
        rewrite Z.div_small in EM' by lia. discriminate. }
      apply pow2_lt_inv; lia. }
    assert (HdM' : Zpos (digits2_pos M') = d - Zpos p).
    { apply digits_unique. rewrite <- EM'. split.
      - apply Z.div_le_lower_bound; auto. rewrite <- pow2_split by lia.
        replace (Zpos p + (d - Zpos p - 1)) with (d - 1) by lia. exact Mlo.
      - apply Z.div_lt_upper_bound; auto. rewrite <- pow2_split by lia.
        replace (Zpos p + (d - Zpos p)) with d by lia. exact Mhi. }
    split.
    + rewrite HdM'. replace (d - Zpos p + g) with (d + E) by lia. now rewrite <- Eg.
    + apply (vle_offset K); lia.
Qed.

(** Rounding a value that is at or above a canonical float gives that
    float or a larger one, in canonical form, or overflows. *)
Lemma round_aux_lower s M E m0 e0 :
  E <= fe (Zpos (digits2_pos M) + E) ->
  canonical m0 e0 ->
  vle (Zpos m0) e0 (Zpos M) E ->
  binary_round_aux F64.prec F64.emax s (Zpos M) E loc_Exact = S754_infinity s \/
  exists m' e',
    binary_round_aux F64.prec F64.emax s (Zpos M) E loc_Exact = S754_finite s m' e' /\
    canonical m' e' /\ vle (Zpos m0) e0 (Zpos m') e'.
Proof.
  intros HE C0 Hv. unfold binary_round_aux.
  destruct (shr_fexp_lower M E loc_Exact m0 e0 HE C0 Hv) as (M1 & H1 & C1 & V1).
  destruct (shr_fexp F64.prec F64.emax (Zpos M) E loc_Exact) as [mrs1 E1].
  cbn [fst snd] in *.
  pose proof (round_nearest_even_ge (shr_m mrs1) (loc_of_shr_record mrs1)) as Hr.
  rewrite H1 in *.
  destruct (round_nearest_even (Zpos M1) (loc_of_shr_record mrs1)) as [|M2|M2] eqn:E2;
    try lia.
  assert (HE2 : E1 <= fe (Zpos (digits2_pos M2) + E1)).
  { unfold canonical in C1. rewrite <- C1 at 1. apply fe_mono.
    pose proof (digits_mono M1 M2 ltac:(lia)). lia. }
  assert (V2 : vle (Zpos m0) e0 (Zpos M2) E1) by (eapply vle_mono_r; eauto).
  destruct (shr_fexp_lower M2 E1 loc_Exact m0 e0 HE2 C0 V2) as (M3 & H3 & C3 & V3).
  destruct (shr_fexp F64.prec F64.emax (Zpos M2) E1 loc_Exact) as [mrs3 E3].
  cbn [fst snd] in *. rewrite H3.
  destruct (E3 <=? F64.emax - F64.prec); [right|left; reflexivity].
  exists M3, E3. auto.
Qed.

Lemma binary_round_lower s m e m0 e0 :
  canonical m0 e0 ->
  vle (Zpos m0) e0 (Zpos m) e ->
  binary_round F64.prec F64.emax s m e = S754_infinity s \/
  exists m' e',
    binary_round F64.prec F64.emax s m e = S754_finite s m' e' /\
    canonical m' e' /\ vle (Zpos m0) e0 (Zpos m') e'.
Proof.
  intros C0 Hv. unfold binary_round.
  fold (fe (Zpos (digits2_pos m) + e)).
  destruct (shl_align_spec m e (fe (Zpos (digits2_pos m) + e))) as (Hs & Hval & Hdig).
  destruct (shl_align m e (fe (Zpos (digits2_pos m) + e))) as [mz ez].
  cbn [fst snd] in *.
  apply round_aux_lower; auto.
  - rewrite Hdig. replace (Zpos (digits2_pos m) + (e - Z.min e (fe (Zpos (digits2_pos m) + e))) + ez)
      with (Zpos (digits2_pos m) + e) by lia. lia.
  - remember (Z.max (- e0) (- ez)) as K eqn:HK.
    assert (- K <= e0 /\ - K <= ez /\ - K <= e) as (K0 & K1 & K2) by lia. clear HK.
    apply (vle_offset K) in Hv; try lia. apply (vle_offset K); try lia.
    rewrite Hval, <- Hs.
    replace (e + K) with ((e - ez) + (ez + K)) in Hv by lia.
    rewrite (pow2_split (e - ez)), Z.mul_assoc in Hv by lia. exact Hv.
Qed.

(** On canonical positive floats the order of values is the order of
    [SFcompare]. *)
Lemma canonical_leb m1 e1 m2 e2 :
  canonical m1 e1 -> canonical m2 e2 ->
  vle (Zpos m1) e1 (Zpos m2) e2 ->
  F64.leb (S754_finite false m1 e1) (S754_finite false m2 e2) = true.
Proof.
  intros C1 C2 Hv. unfold F64.leb, SFleb, SFcompare.
  destruct (e1 ?= e2) eqn:Ec; auto.
  - apply Z.compare_eq in Ec. subst e2. unfold vle in Hv.
    rewrite Z.min_id, Z.sub_diag, Z.pow_0_r, !Z.mul_1_r in Hv.
    destruct (Pos.compare_cont Eq m1 m2) eqn:Em; auto.
  - rewrite Z.compare_gt_iff in Ec.
    pose proof (fe_mono _ _ (magnitude_mono _ _ _ _ Hv)) as H.
    unfold canonical in *. lia.
Qed.

(** ** The corrected product is not below the measurement *)

Lemma of_Z_1 : F64.of_Z 1 = S754_finite false one_m (-52).
Proof. reflexivity. Qed.

Lemma of_Z_100 : F64.of_Z 100 = S754_finite false 7036874417766400 (-46).
Proof. reflexivity. Qed.

Lemma canonical_one : canonical one_m (-52).
Proof. reflexivity. Qed.

Lemma vle_one_aligned ez :
  ez <= -52 ->
  vle (Zpos one_m) (-52) (Zpos (fst (shl_align one_m (-52) ez))) ez.
Proof.
  intros H. unfold vle. rewrite shl_align_val by lia.
  rewrite Z.min_r, Z.sub_diag, Z.pow_0_r by lia. lia.
Qed.

Lemma div_hundred_sign c :
  F64.ltb F64.zero c = true ->
  F64.div c (F64.of_Z 100) = S754_zero false \/
  F64.div c (F64.of_Z 100) = S754_infinity false \/
  exists m e, F64.div c (F64.of_Z 100) = S754_finite false m e.
Proof.
  intros Hc. rewrite of_Z_100.
  destruct (ltb_zero_inv c Hc) as [->|(m & e & ->)]; [right; left; reflexivity|].
  unfold F64.div, SFdiv, SFdiv_core_binary.
  set (m' := match _ with Zpos _ => _ | Z0 => _ | Zneg _ => _ end).
  assert (Hm' : 0 <= m').
  { subst m'. destruct (_ - _ - _) as [|p|p]; try lia.
    rewrite Z.shiftl_mul_pow2 by lia. apply Z.mul_nonneg_nonneg; [lia|].
    apply Z.pow_nonneg. lia. }
  pose proof (Z.div_pos m' (Zpos 7036874417766400) Hm' ltac:(lia)) as Hq.
  unfold Z.div in Hq.
  destruct (Z.div_eucl m' (Zpos 7036874417766400)) as [q r].
  apply round_aux_sign. exact Hq.
Qed.

Lemma add_one_ge q :
  q = S754_zero false \/ q = S754_infinity false \/
  (exists m e, q = S754_finite false m e) ->
  F64.add (F64.of_Z 1) q = S754_infinity false \/
  exists mf ef,
    F64.add (F64.of_Z 1) q = S754_finite false mf ef /\
    canonical mf ef /\ vle (Zpos one_m) (-52) (Zpos mf) ef.
Proof.
  rewrite of_Z_1. intros [->|[->|(m & e & ->)]].
  - right. exists one_m, (-52). repeat split. unfold vle. lia.
  - left. reflexivity.
  - unfold F64.add, SFadd, cond_Zopp.
    set (ez := Z.min (-52) e).
    change (Zpos (fst (shl_align one_m (-52) ez)) + Zpos (fst (shl_align m e ez)))
      with (Zpos (fst (shl_align one_m (-52) ez) + fst (shl_align m e ez))).
    cbn [binary_normalize].
    apply binary_round_lower; [apply canonical_one|].
    eapply vle_mono_r; [|apply vle_one_aligned; subst ez; lia]. lia.
Qed.

Lemma mul_ge_self mb eb mf ef :
  canonical mb eb -> canonical mf ef ->
  vle (Zpos one_m) (-52) (Zpos mf) ef ->
  F64.leb (S754_finite false mb eb)
    (F64.mul (S754_finite false mb eb) (S754_finite false mf ef)) = true.
Proof.
  intros Cb Cf Hf. unfold F64.mul, SFmul. cbn [xorb].
  assert (HE : eb + ef <= fe (Zpos (digits2_pos (mb * mf)) + (eb + ef))).
  { pose proof (digits_mul_ge mb mf). unfold canonical in *. rewrite fe_eq in *. lia. }
  assert (Hv : vle (Zpos mb) eb (Zpos (mb * mf)) (eb + ef)).
  { remember (Z.max (Z.max (52 - eb) (- ef - eb)) (- eb)) as K eqn:HK.
    assert (52 <= eb + K /\ - (eb + K) <= ef /\ - K <= eb) as (K1 & K2 & K3) by lia.
    clear HK.
    apply (vle_offset (eb + K)) in Hf; try lia.
    apply (vle_offset K); try lia.
    replace (-52 + (eb + K)) with ((eb + K - 52) + 0) in Hf by lia.
    assert (H52 : Zpos one_m = 2 ^ 52) by reflexivity.
    rewrite H52, <- pow2_split in Hf by lia.
    replace (52 + (eb + K - 52 + 0)) with (eb + K) in Hf by lia.
    replace (eb + ef + K) with (ef + (eb + K)) by lia.
    rewrite Pos2Z.inj_mul, <- Z.mul_assoc.
    apply Z.mul_le_mono_nonneg_l; lia. }
  destruct (round_aux_lower false (mb * mf) (eb + ef) mb eb HE Cb Hv)
    as [->|(m' & e' & -> & C' & V')].
  - reflexivity.
  - now apply canonical_leb.
Qed.

(** For a positive measurement and a positive percentage, the float
    [before * (1 + capped_pct / 100)] is at least [before]. *)
Lemma product_not_below b c :
  float64 b -> F64.ltb F64.zero b = true -> F64.ltb F64.zero c = true ->
  F64.leb b (F64.mul b (F64.add (F64.of_Z 1) (F64.div c (F64.of_Z 100)))) = true.
Proof.
  intros [Vb Fb] Hb Hc.
  destruct (ltb_zero_inv b Hb) as [->|(mb & eb & ->)]; [discriminate Fb|].
  destruct (add_one_ge _ (div_hundred_sign c Hc)) as [->|(mf & ef & -> & Cf & Vf)].
  - reflexivity.
  - apply mul_ge_self; auto. now apply valid_canonical in Vb.
Qed.

(** ** Division by a zero mean *)

Lemma div_by_zero x s : F64.is_finite (F64.div x (S754_zero s)) = false.
Proof. destruct x; reflexivity. Qed.

Lemma mul_hundred_not_finite x :
  F64.is_finite x = false -> F64.is_finite (F64.mul x (F64.of_Z 100)) = false.
Proof. destruct x; simpl; try discriminate; reflexivity. Qed.

(** ** The built-ins [min] and [round] *)

(** [min(pct, 5.0)] never exceeds the ceiling, keeps the sign of a
    non-negative [pct] and returns a [pct] below the ceiling as it is. *)
Lemma min_cap_bounds p :
  (F64.leb F64.zero p = true ->
   F64.leb F64.zero (Py.min p cap) = true /\ F64.leb (Py.min p cap) cap = true) /\
  (F64.ltb p cap = true -> Py.min p cap = p).
Proof.
  unfold Py.min. split.
  - intros H0. destruct (F64.ltb cap p) eqn:E.
    + split; reflexivity.
    + split; [exact H0|]. apply not_ltb_leb; auto.
      now apply leb_not_nan with (x := F64.zero).
  - intros H. now rewrite (ltb_asym _ _ H).
Qed.

Lemma round_half_even_spec num den :
  0 <= num -> 0 < den ->
  Z.abs (2 * num - 2 * round_half_even num den * den) <= den /\
  (Z.abs (2 * num - 2 * round_half_even num den * den) = den ->
   Z.even (round_half_even num den) = true /\
   (Z.even (num / den) = true -> round_half_even num den = num / den)).
Proof.
  intros Hn Hd. unfold round_half_even.
  pose proof (Z.div_mod num den ltac:(lia)) as Hdm.
  pose proof (Z.mod_pos_bound num den Hd) as Hr.
  set (q := num / den) in *. set (r := num mod den) in *.
  assert (E1 : 2 * num - 2 * q * den = 2 * r) by lia.
  assert (E2 : 2 * num - 2 * (q + 1) * den = 2 * r - 2 * den) by lia.
  destruct (2 * r ?= den) eqn:C.
  - apply Z.compare_eq in C.
    destruct (Z.even q) eqn:Ev.
    + rewrite E1. split; [lia|]. auto.
    + rewrite E2. split; [lia|]. intros _. split; [|discriminate].
      rewrite Z.even_add, Ev. reflexivity.
  - rewrite Z.compare_lt_iff in C. rewrite E1. split; lia.
  - rewrite Z.compare_gt_iff in C. rewrite E2. split; lia.
Qed.

Lemma scaled_steps m e :
  Py.scaled m e 4 =
  if 0 <=? e then steps_num m e else round_half_even (steps_num m e) (steps_den e).
Proof.
  unfold Py.scaled, steps_num, steps_den.
  change (10 ^ Z.of_nat 4) with (10 ^ 4).
  destruct (0 <=? e) eqn:E.
  - apply Z.leb_le in E. rewrite Z.max_l by lia. lia.
  - apply Z.leb_gt in E. rewrite Z.max_r, Z.max_l by lia. rewrite Z.pow_0_r. f_equal. lia.
Qed.

Lemma scaled_nearest m e :
  let n := Py.scaled m e 4 in
  Z.abs (2 * steps_num m e - 2 * n * steps_den e) <= steps_den e /\
  (Z.abs (2 * steps_num m e - 2 * n * steps_den e) = steps_den e ->
   Z.even n = true /\
   (Z.even (steps_num m e / steps_den e) = true -> n = steps_num m e / steps_den e)).
Proof.
  intros n. subst n. rewrite scaled_steps.
  assert (Hn : 0 <= steps_num m e).
  { unfold steps_num. apply Z.mul_nonneg_nonneg; [lia|]. apply Z.pow_nonneg. lia. }
  assert (Hd : 0 < steps_den e) by (unfold steps_den; apply Z.pow_pos_nonneg; lia).
  destruct (0 <=? e) eqn:E.
  - apply Z.leb_le in E.
    assert (Hone : steps_den e = 1) by (unfold steps_den; now rewrite Z.max_r by lia).
    rewrite Hone. split; [lia|]. lia.
  - now apply round_half_even_spec.
Qed.

(** ** Rounding that is exact *)

Lemma shr_1_even z :
  0 < z ->
  shr_1 {| shr_m := 2 * z; shr_r := false; shr_s := false |}
  = {| shr_m := z; shr_r := false; shr_s := false |}.
Proof. destruct z as [|q|q]; try lia. reflexivity. Qed.

Lemma iter_shr_1_exact p : forall z,
  0 < z ->
  iter_pos shr_1 p {| shr_m := z * 2 ^ Zpos p; shr_r := false; shr_s := false |}
  = {| shr_m := z; shr_r := false; shr_s := false |}.
Proof.
  assert (Hpow : forall q, 0 < 2 ^ Zpos q) by (intros; apply Z.pow_pos_nonneg; lia).
  induction p as [p IH|p IH|]; intros z Hz; cbn [iter_pos].
  - rewrite pow2_xI.
    replace (z * (2 * (2 ^ Zpos p * 2 ^ Zpos p))) with (2 * (z * 2 ^ Zpos p * 2 ^ Zpos p)) by lia.
    pose proof (Hpow p).
    rewrite shr_1_even by nia. rewrite IH by nia. now apply IH.
  - rewrite pow2_xO, Z.mul_assoc. pose proof (Hpow p).
    rewrite IH by nia. now apply IH.
  - replace (z * 2 ^ 1) with (2 * z) by lia. now apply shr_1_even.
Qed.

Lemma digits_shift Q t :
  0 <= t -> forall M, Zpos M = Zpos Q * 2 ^ t ->
  Zpos (digits2_pos M) = Zpos (digits2_pos Q) + t.
Proof.
  intros Ht M HM. apply digits_unique. rewrite HM.
  pose proof (digits2_bounds Q) as [Lo Hi].
  assert (0 < Zpos (digits2_pos Q)) by lia.
  replace (Zpos (digits2_pos Q) + t - 1) with ((Zpos (digits2_pos Q) - 1) + t) by lia.
  rewrite !pow2_split by lia.
  assert (0 < 2 ^ t) by (apply pow2_pos; lia). nia.
Qed.

(** A mantissa that ends in as many zero bits as the shift to its
    canonical exponent drops is rounded without error. *)
Lemma round_aux_exact s M E Q t :
  0 <= t -> Zpos M = Zpos Q * 2 ^ t ->
  canonical Q (E + t) -> E + t <= F64.emax - F64.prec ->
  binary_round_aux F64.prec F64.emax s (Zpos M) E loc_Exact = S754_finite s Q (E + t).
Proof.
  intros Ht HM CQ Hmax. unfold binary_round_aux, shr_fexp. cbn [Zdigits2].
  rewrite (digits_shift Q t Ht M HM).
  unfold canonical, fe in CQ.
  replace (Zpos (digits2_pos Q) + t + E) with (Zpos (digits2_pos Q) + (E + t)) by lia.
  rewrite CQ. replace (E + t - E) with t by lia.
  assert (Hshr : shr (shr_record_of_loc (Zpos M) loc_Exact) E t
                 = ({| shr_m := Zpos Q; shr_r := false; shr_s := false |}, E + t)).
  { unfold shr, shr_record_of_loc. destruct t as [|p|p]; try lia.
    - rewrite Z.pow_0_r, Z.mul_1_r in HM. rewrite HM, Z.add_0_r. reflexivity.
    - rewrite HM, iter_shr_1_exact by lia. reflexivity. }
  rewrite Hshr. cbn [shr_m loc_of_shr_record round_nearest_even Zdigits2].
  rewrite CQ, Z.sub_diag. cbn [shr shr_record_of_loc shr_m].
  apply Z.leb_le in Hmax. now rewrite Hmax.
Qed.

Lemma round_aux_canonical s m e :
  canonical m e -> e <= F64.emax - F64.prec ->
  binary_round_aux F64.prec F64.emax s (Zpos m) e loc_Exact = S754_finite s m e.
Proof.
  intros C H. rewrite <- (Z.add_0_r e) at 2.
  apply round_aux_exact; rewrite ?Z.add_0_r; auto; lia.
Qed.

(** An integer below 2^53 is a float. *)
Lemma of_signed_exact s n :
  Zpos n < 2 ^ 53 ->
  exists mz,
    F64.of_signed s (Zpos n) = S754_finite s mz (Zpos (digits2_pos n) - 53) /\
    Zpos mz = Zpos n * 2 ^ (53 - Zpos (digits2_pos n)) /\
    Zpos (digits2_pos n) <= 53.
Proof.
  intros Hn.
  assert (Hd : Zpos (digits2_pos n) <= 53).
  { pose proof (digits2_bounds n) as [Lo _].
    assert (2 ^ (Zpos (digits2_pos n) - 1) < 2 ^ 53) by lia.
    apply pow2_lt_inv in H; lia. }
  assert (E : F64.of_signed s (Zpos n) = binary_round F64.prec F64.emax s n 0)
    by (destruct s; reflexivity).
  rewrite E. unfold binary_round. fold (fe (Zpos (digits2_pos n) + 0)).
  destruct (shl_align_spec n 0 (fe (Zpos (digits2_pos n) + 0))) as (Hs & Hval & Hdig).
  destruct (shl_align n 0 (fe (Zpos (digits2_pos n) + 0))) as [mz ez].
  cbn [fst snd] in *. rewrite fe_eq in *.
  assert (Hez : ez = Zpos (digits2_pos n) - 53) by lia.
  clear Hs. exists mz. subst ez. split; [|split; auto].
  - apply round_aux_canonical; [|unfold F64.emax, F64.prec; lia].
    unfold canonical. rewrite Hdig, fe_eq. lia.
  - rewrite Hval. apply f_equal, f_equal. lia.
Qed.

(** ** Ties *)

Lemma round_half_even_tie num den k :
  0 < den -> 2 * num = (2 * k + 1) * den ->
  round_half_even num den = if Z.even k then k else k + 1.
Proof.
  intros Hd Ht.
  assert (Hev : Z.even den = true).
  { apply (f_equal Z.even) in Ht. rewrite !Z.even_mul in Ht.
    replace (2 * k + 1) with (1 + 2 * k) in Ht by lia.
    rewrite Z.even_add_mul_2 in Ht. simpl in Ht. now symmetry. }
  apply Z.even_spec in Hev. destruct Hev as [h Hh].
  assert (Hnum : num = den * k + h) by nia.
  assert (Hq : num / den = k) by (symmetry; apply (Z.div_unique num den k h); lia).
  assert (Hr : num mod den = h) by (symmetry; apply (Z.mod_unique num den k h); lia).
  unfold round_half_even. rewrite Hq, Hr.
  replace (2 * h ?= den) with Eq by (symmetry; apply Z.compare_eq_iff; lia).
  reflexivity.
Qed.

Lemma div_eucl_div_mod a b : Z.div_eucl a b = (a / b, a mod b).
Proof. unfold Z.div, Z.modulo. now destruct (Z.div_eucl a b). Qed.

Lemma of_Z_10000 : F64.of_Z 10000 = S754_finite false 5497558138880000 (-39).
Proof. reflexivity. Qed.

(** The quotient of an integer below 2^53 by 10^4 does not depend on how
    the two are written as floats. *)
Lemma decimal_normal s n :
  Zpos n < 2 ^ 53 ->
  Py.nearest_decimal s (Zpos n) 4 = F64.div (F64.of_signed s (Zpos n)) (F64.of_Z 10000).
Proof.
  intros Hn. destruct (of_signed_exact s n Hn) as (mz & -> & Hmz & Hd).
  rewrite of_Z_10000. unfold Py.nearest_decimal, F64.div, SFdiv.
  change (Z.to_pos (10 ^ Z.of_nat 4)) with 10000%positive.
  assert (Hdm : Zpos (digits2_pos mz) = 53).
  { rewrite (digits_shift n (53 - Zpos (digits2_pos n)) ltac:(lia) mz Hmz). lia. }
  assert (Hcore :
    SFdiv_core_binary F64.prec F64.emax (Zpos n) 0 10000 0
    = SFdiv_core_binary F64.prec F64.emax (Zpos mz) (Zpos (digits2_pos n) - 53)
        5497558138880000 (-39)).
  { unfold SFdiv_core_binary. cbn [Zdigits2]. rewrite Hdm.
    change (digits2_pos 10000) with 14%positive.
    change (digits2_pos 5497558138880000) with 53%positive.
    remember (Zpos (digits2_pos n)) as d eqn:Ed.
    assert (Hd1 : 1 <= d) by lia.
    assert (E1 : Z.min (fexp F64.prec F64.emax (d + 0 - (14 + 0))) (0 - 0) = d - 67)
      by (unfold fexp, SpecFloat.emin, F64.prec, F64.emax; lia).
    assert (E2 : Z.min (fexp F64.prec F64.emax (53 + (d - 53) - (53 + -39)))
                   (d - 53 - -39) = d - 67)
      by (unfold fexp, SpecFloat.emin, F64.prec, F64.emax; lia).
    rewrite E1, E2.
    replace (0 - 0 - (d - 67)) with (67 - d) by lia.
    replace (d - 53 - -39 - (d - 67)) with 53 by lia.
    destruct (67 - d) as [|p|p] eqn:Ep; try lia.
    rewrite <- Ep. rewrite !Z.shiftl_mul_pow2 by lia.
    set (A := Zpos n * 2 ^ (67 - d)).
    assert (HA : Zpos mz * 2 ^ 53 = A * 2 ^ 39).
    { subst A. rewrite Hmz, <- !Z.mul_assoc, <- !pow2_split by lia. do 2 f_equal. lia. }
    rewrite HA.
    assert (H4 : 5497558138880000 = 10000 * 2 ^ 39) by reflexivity.
    assert (Hq : A * 2 ^ 39 / 5497558138880000 = A / 10000)
      by (rewrite H4; apply Z.div_mul_cancel_r; lia).
    assert (Hm : (A * 2 ^ 39) mod 5497558138880000 = A mod 10000 * 2 ^ 39)
      by (rewrite H4; apply Z.mul_mod_distr_r; lia).
    rewrite !div_eucl_div_mod, Hq, Hm.
    f_equal. unfold new_location.
    change (Z.even 10000) with true. change (Z.even 5497558138880000) with true.
    cbv iota. unfold new_location_even.
    pose proof (Z.mod_pos_bound A 10000 ltac:(lia)) as Hr.
    set (r := A mod 10000) in *.
    destruct (r =? 0) eqn:Er.
    - apply Z.eqb_eq in Er. rewrite Er. reflexivity.
    - apply Z.eqb_neq in Er.
      replace (r * 2 ^ 39 =? 0) with false by (symmetry; apply Z.eqb_neq; lia).
      f_equal. symmetry. change (2 ^ 39) with 549755813888.
      destruct (2 * r ?= 10000) eqn:C.
      + apply Z.compare_eq in C. apply Z.compare_eq_iff. lia.
      + rewrite Z.compare_lt_iff in C. apply Z.compare_lt_iff. lia.
      + rewrite Z.compare_gt_iff in C. apply Z.compare_gt_iff. lia. }
  rewrite Hcore. reflexivity.
Qed.

Lemma tie_exponent m e k :
  2 * steps_num m e = (2 * k + 1) * steps_den e ->
  e < 0 /\ 2 * (Zpos m * 10000) = (2 * k + 1) * 2 ^ (- e) /\ 0 <= k.
Proof.
  intros Ht. unfold steps_num, steps_den in Ht. change (10 ^ 4) with 10000 in Ht.
  assert (He : e < 0).
  { destruct (Z.lt_ge_cases e 0) as [|Hge]; auto. exfalso.
    rewrite (Z.max_r (- e) 0), Z.pow_0_r in Ht by lia. lia. }
  rewrite (Z.max_r e 0), (Z.max_l (- e) 0), Z.pow_0_r, Z.mul_1_r in Ht by lia.
  repeat split; auto.
  assert (0 < 2 ^ (- e)) by (apply pow2_pos; lia). nia.
Qed.

Lemma tie_neighbour k :
  0 <= k -> 2 * k + 1 < 2 ^ 53 ->
  0 <= (if Z.even k then k else k + 1) < 2 ^ 53.
Proof.
  intros Hk Hb. change (2 ^ 53) with 9007199254740992 in *.
  destruct (Z.even k); lia.
Qed.

Lemma div_zero_signed s : F64.div (F64.of_signed s 0) (F64.of_Z 10000) = S754_zero s.
Proof. destruct s; reflexivity. Qed.

(** An exact tie under Python's [round]: the even neighbour. *)
Lemma float_round_tie s m e k :
  2 * steps_num m e = (2 * k + 1) * steps_den e -> 2 * k + 1 < 2 ^ 53 ->
  Py.float_round (S754_finite s m e) 4
  = F64.div (F64.of_signed s (if Z.even k then k else k + 1)) (F64.of_Z 10000).
Proof.
  intros Ht Hb. destruct (tie_exponent m e k Ht) as (He & Ht' & Hk).
  unfold Py.float_round, Py.scaled. change (10 ^ Z.of_nat 4) with 10000.
  replace (0 <=? e) with false by (symmetry; apply Z.leb_gt; lia).
  rewrite (round_half_even_tie _ _ k) by (auto; apply pow2_pos; lia).
  pose proof (tie_neighbour k Hk Hb) as Hn.
  destruct (if Z.even k then k else k + 1) as [|n|n]; try lia.
  - now rewrite div_zero_signed.
  - apply decimal_normal. lia.
Qed.

(** An exact tie under numpy's: the scaled product is the tie itself,
    and [rint] takes it to the even neighbour. *)
Lemma np_round_tie s m e k :
  2 * steps_num m e = (2 * k + 1) * steps_den e -> 2 * k + 1 < 2 ^ 53 ->
  Np.round (S754_finite s m e) 4
  = F64.div (F64.of_signed s (if Z.even k then k else k + 1)) (F64.of_Z 10000).
Proof.
  intros Ht Hb. destruct (tie_exponent m e k Ht) as (He & Ht' & Hk).
  destruct (2 * k + 1) as [|c|c] eqn:Ec; try lia.
  pose proof (digits2_bounds c) as [Clo Chi].
  remember (Zpos (digits2_pos c)) as d eqn:Ed in *.
  assert (Hd1 : 1 <= d) by lia.
  assert (Hd : d <= 53).
  { assert (H : 2 ^ (d - 1) < 2 ^ 53) by lia. apply pow2_lt_inv in H; lia. }
  assert (Hde : 15 <= d - e).
  { assert (H : 2 ^ 14 < 2 ^ (d + - e)).
    { rewrite pow2_split by lia. change (2 ^ 14) with 16384.
      assert (0 < 2 ^ (- e)) by (apply pow2_pos; lia). nia. }
    apply pow2_lt_inv in H; lia. }
  assert (HQ : 0 < Zpos c * 2 ^ (53 - d)).
  { apply Z.mul_pos_pos; [lia|]. apply pow2_pos. lia. }
  destruct (Zpos c * 2 ^ (53 - d)) as [|Q|Q] eqn:EQ; try lia.
  assert (DQ : Zpos (digits2_pos Q) = 53).
  { rewrite (digits_shift c (53 - d) ltac:(lia) Q ltac:(lia)). lia. }
  assert (Hmul : F64.mul (S754_finite s m e) (F64.of_Z 10000) = S754_finite s Q (d - 54)).
  { rewrite of_Z_10000. unfold F64.mul, SFmul. rewrite xorb_false_r.
    replace (d - 54) with (e + -39 + (d - 15 - e)) by lia.
    apply round_aux_exact.
    - lia.
    - rewrite Pos2Z.inj_mul, <- EQ.
      assert (H4 : 5497558138880000 = 10000 * (2 * 2 ^ 38)) by reflexivity.
      rewrite H4, !Z.mul_assoc.
      replace (Zpos m * 10000 * 2 * 2 ^ 38) with (2 * (Zpos m * 10000) * 2 ^ 38) by lia.
      rewrite Ht', <- !Z.mul_assoc, <- !pow2_split by lia.
      do 2 f_equal. lia.
    - unfold canonical. rewrite DQ, fe_eq. lia.
    - unfold F64.emax, F64.prec. lia. }
  unfold Np.round. change (10 ^ Z.of_nat 4) with 10000. rewrite Hmul.
  unfold Np.rint.
  replace (0 <=? d - 54) with false by (symmetry; apply Z.leb_gt; lia).
  rewrite (round_half_even_tie _ _ k); [reflexivity | apply pow2_pos; lia |].
  rewrite Ec, <- EQ. replace (- (d - 54)) with (1 + (53 - d)) by lia.
  rewrite pow2_split by lia. change (2 ^ 1) with 2. lia.
Qed.

(** ** [round] in general: the nearest integer of what is scaled *)

Lemma nearest_decimal_4 s n :
  Py.nearest_decimal s n 4
  = match n with
    | Zpos p => SFdiv F64.prec F64.emax (S754_finite s p 0) (S754_finite false 10000 0)
    | _ => S754_zero s
    end.
Proof. reflexivity. Qed.

Lemma np_round_scaled x sy my ey :
  F64.mul x (F64.of_Z 10000) = S754_finite sy my ey -> ey < 0 ->
  Np.round x 4
  = F64.div (F64.of_signed sy (round_half_even (Zpos my) (2 ^ (- ey)))) (F64.of_Z 10000).
Proof.
  intros Hy He. unfold Np.round. change (10 ^ Z.of_nat 4) with 10000. rewrite Hy.
  unfold Np.rint. now replace (0 <=? ey) with false by (symmetry; apply Z.leb_gt; lia).
Qed.

(** ** Sums as numpy adds them *)

Ltac forall_cons :=
  repeat match goal with
         | H : Forall _ (_ :: _) |- _ => inversion H; subst; clear H
         end.

Section Closed.

Variable P : F64.float -> Prop.
Hypothesis Padd : forall x y, P x -> P y -> P (F64.add x y).

Lemma fold_closed xs : forall acc,
  P acc -> Forall P xs -> P (fold_left F64.add xs acc).
Proof.
  induction xs as [|x xs IH]; intros acc Hacc Hxs; simpl; auto.
  inversion Hxs; subst. apply IH; auto.
Qed.

Lemma unrolled_closed n : forall xs r0 r1 r2 r3 r4 r5 r6 r7,
  (List.length xs <= n)%nat ->
  P r0 -> P r1 -> P r2 -> P r3 -> P r4 -> P r5 -> P r6 -> P r7 ->
  Forall P xs -> P (Np.unrolled r0 r1 r2 r3 r4 r5 r6 r7 xs).
Proof.
  induction n as [|n IH]; intros xs r0 r1 r2 r3 r4 r5 r6 r7 Hn P0 P1 P2 P3 P4 P5 P6 P7 Hxs;
    destruct xs as [|x0 [|x1 [|x2 [|x3 [|x4 [|x5 [|x6 [|x7 rest]]]]]]]];
    cbn [Np.unrolled]; try (apply fold_closed; auto 10);
    simpl in Hn; try lia.
  forall_cons. apply IH; auto. lia.
Qed.

Lemma block_closed xs : P F64.zero -> Forall P xs -> P (Np.block xs).
Proof.
  intros P0 Hxs.
  destruct xs as [|x0 [|x1 [|x2 [|x3 [|x4 [|x5 [|x6 [|x7 rest]]]]]]]];
    cbn [Np.block]; try (apply fold_closed; auto).
  forall_cons. apply (unrolled_closed (List.length rest)); auto.
Qed.

Lemma pairwise_closed fuel : forall xs,
  P F64.zero -> Forall P xs -> P (Np.pairwise_sum fuel xs).
Proof.
  induction fuel as [|fuel IH]; intros xs P0 Hxs; cbn [Np.pairwise_sum];
    destruct (Nat.leb (List.length xs) 128); try (apply block_closed; auto).
  rewrite <- (firstn_skipn (Np.cut (List.length xs)) xs) in Hxs.
  apply Forall_app in Hxs. destruct Hxs as [H1 H2].
  apply Padd; apply IH; auto.
Qed.

Lemma sum_closed xs : P F64.zero -> Forall P xs -> P (Np.sum xs).
Proof.
  intros P0 Hxs. unfold Np.sum. apply Padd; auto. now apply pairwise_closed.
Qed.

End Closed.

(** The length of the array is fuel enough: any larger amount gives the
    same sum, and above 128 cells the sum is that of the two parts, each
    under its own length. *)
Lemma cut_bounds n : (128 < n)%nat -> (0 < Np.cut n < n)%nat.
Proof.
  intros Hn. unfold Np.cut.
  pose proof (Nat.Div0.mul_div_le n 2).
  pose proof (Nat.mul_succ_div_gt n 2 ltac:(lia)).
  pose proof (Nat.mod_upper_bound (Nat.div n 2) 8 ltac:(lia)).
  split; lia.
Qed.

Lemma pairwise_sum_fuel f1 : forall f2 xs,
  (List.length xs <= f1)%nat -> (List.length xs <= f2)%nat ->
  Np.pairwise_sum f1 xs = Np.pairwise_sum f2 xs.
Proof.
  induction f1 as [|f1 IH]; intros [|f2] xs H1 H2; cbn [Np.pairwise_sum];
    destruct (Nat.leb (List.length xs) 128) eqn:E; auto;
    apply Nat.leb_gt in E; try lia.
  pose proof (cut_bounds _ E) as Hc.
  f_equal; apply IH; rewrite ?length_firstn, ?length_skipn; lia.
Qed.

Lemma pairwise_sum_halves xs :
  (128 < List.length xs)%nat ->
  Np.pairwise_sum (List.length xs) xs
  = F64.add
      (Np.pairwise_sum (List.length (firstn (Np.cut (List.length xs)) xs))
         (firstn (Np.cut (List.length xs)) xs))
      (Np.pairwise_sum (List.length (skipn (Np.cut (List.length xs)) xs))
         (skipn (Np.cut (List.length xs)) xs)).
Proof.
  intros Hn. pose proof (cut_bounds _ Hn) as Hc.
  destruct (List.length xs) as [|n] eqn:E; [lia|]. cbn [Np.pairwise_sum]. rewrite E.
  replace (Nat.leb (S n) 128) with false by (symmetry; apply Nat.leb_gt; lia).
  f_equal; apply pairwise_sum_fuel; rewrite ?length_firstn, ?length_skipn; lia.
Qed.







(** ** The row functions *)

Lemma error_positive b a :
  float64 b -> float64 a -> Py.ne b a = true -> F64.ltb F64.zero (error b a) = true.
Proof.
  intros Hb Ha Hne. unfold error. rewrite Hne.
  assert (Hc : SFcompare a b <> Some Eq).
  { intros Hc.
    assert (Py.ne b a = false)
      by (apply ne_compare; rewrite (SFcompare_antisym a b), Hc; reflexivity).
    congruence. }
  destruct (sub_distinct a b Ha Hb Hc) as [[s H]|(s & m & e & H)]; now rewrite H.
Qed.

Lemma error_zero b a : Py.ne b a = false -> error b a = F64.zero.
Proof. unfold error. now intros ->. Qed.

Lemma direction_equal b a :
  F64.is_finite b = true -> F64.is_finite a = true ->
  (more_or_less b a = "equal"%string <-> Py.ne b a = false).
Proof.
  intros Hb Ha. destruct (compare_finite b a Hb Ha) as [c Hc].
  unfold more_or_less, Py.gt, Py.lt, Py.ne, F64.ltb, F64.eqb, SFltb, SFeqb.
  rewrite (SFcompare_antisym b a), Hc.
  destruct c; simpl; split; intros H; try reflexivity; discriminate H.
Qed.

(** ** What a run computes *)

Lemma process_file_inv time_id df o before after :
  get_col "ace_before" df = Some (FloatCol before) ->
  get_col "ace_after" df = Some (FloatCol after) ->
  process_file time_id df = inr o ->
  table1 o = detect before after df /\
  table2 o = set_col "estimated" (FloatCol (estimates before after)) (detect before after df) /\
  avg_error o = mean (errors before after) /\
  avg_error_pct o = pct before after /\
  total_error o = sum (errors before after) /\
  capped_pct o = Py.min (pct before after) cap.
Proof.
  intros Hb Ha. unfold process_file. rewrite Hb, Ha.
  intros H. inversion H; subst o; clear H. simpl. repeat split.
Qed.

Lemma process_file_runs time_id df before after :
  get_col "ace_before" df = Some (FloatCol before) ->
  get_col "ace_after" df = Some (FloatCol after) ->
  exists o, process_file time_id df = inr o.
Proof.
  intros Hb Ha. unfold process_file. rewrite Hb, Ha.
  eexists. reflexivity.
Qed.

Lemma process_file_reads time_id df o :
  process_file time_id df = inr o ->
  exists before after,
    get_col "ace_before" df = Some (FloatCol before) /\
    get_col "ace_after" df = Some (FloatCol after).
Proof.
  unfold process_file. intros H.
  destruct (get_col "ace_before" df) as [[b| | | ]|]; try discriminate H;
    destruct (get_col "ace_after" df) as [[a| | | ]|]; try discriminate H.
  now exists b, a.
Qed.

Lemma detect_cells before after df i b a :
  nth_error before i = Some b -> nth_error after i = Some a ->
  int_at "anomaly_score" i (detect before after df) = Some (anomaly_score b a) /\
  bool_at "is_anomaly" i (detect before after df) = Some (is_anomaly (anomaly_score b a)) /\
  str_at "more_or_less" i (detect before after df) = Some (more_or_less b a) /\
  float_at "error" i (detect before after df) = Some (error b a).
Proof.
  intros Hb Ha. unfold int_at, bool_at, str_at, float_at, detect. frame.
  unfold scores, directions, errors. repeat split.
  - now rewrite (nth_error_rows_map _ _ _ _ _ _ Hb Ha).
  - apply map_nth_error. now rewrite (nth_error_rows_map _ _ _ _ _ _ Hb Ha).
  - now rewrite (nth_error_rows_map _ _ _ _ _ _ Hb Ha).
  - now rewrite (nth_error_rows_map _ _ _ _ _ _ Hb Ha).
Qed.

Lemma detect_keeps name before after df :
  ~ In name detection_columns ->
  get_col name (detect before after df) = get_col name df.
Proof.
  intros Hn. unfold detect.
  rewrite !get_set_ne; auto; intros <-; apply Hn; simpl; tauto.
Qed.

Lemma detect_measurements before after df :
  get_col "ace_before" (detect before after df) = get_col "ace_before" df /\
  get_col "ace_after" (detect before after df) = get_col "ace_after" df.
Proof.
  split; apply detect_keeps; simpl; intros H;
    repeat (destruct H as [H|H]; [discriminate H|]); exact H.
Qed.

(** Assigning the detection columns a second time changes nothing. *)
Lemma detect_idem before after df :
  detect before after (detect before after df) = detect before after df.
Proof.
  unfold detect at 1.
  rewrite (set_same "anomaly_score") by (unfold detect; now frame).
  rewrite (set_same "is_anomaly") by (unfold detect; now frame).
  rewrite (set_same "more_or_less") by (unfold detect; now frame).
  rewrite (set_same "error") by (unfold detect; now frame).
  reflexivity.
Qed.

Lemma detect_columns_only before after df df' name :
  In name detection_columns ->
  get_col name (detect before after df') = get_col name (detect before after df).
Proof.
  simpl. intros H. unfold detect.
  repeat (destruct H as [<-|H]; [now frame|]). destruct H.
Qed.

Lemma estimates_cell before after i b s :
  nth_error before i = Some b ->
  nth_error (scores before after) i = Some s ->
  nth_error (estimates before after) i =
    Some (estimated (capped_class (pct before after)) (Py.min (pct before after) cap) b s).
Proof.
  intros Hb Hs. unfold estimates.
  now rewrite (map_nth_error _ _ _ (nth_error_combine _ _ _ _ _ Hb Hs)).
Qed.

Lemma int_at_scores before after df i s :
  int_at "anomaly_score" i (detect before after df) = Some s ->
  nth_error (scores before after) i = Some s.
Proof. unfold int_at, detect. now frame. Qed.

(** ** The detection columns as arrays *)



(** The four detection columns have one cell per row. *)
Lemma detect_heights before after df name :
  List.length before = List.length after ->
  In name detection_columns ->
  option_map height (get_col name (detect before after df)) = Some (List.length before).
Proof.
  intros Hlen Hin. simpl in Hin. unfold detect.
  assert (Hrows : List.length (rows before after) = List.length before)
    by (unfold rows; rewrite length_combine; lia).
  repeat (destruct Hin as [<-|Hin];
          [frame; simpl; unfold scores, directions, errors;
           now rewrite ?length_map, Hrows|]).
  destruct Hin.
Qed.

(** ** Properties of a run *)

Section Run.

Variables (time_id : string) (df : DataFrame) (o : Output).
Hypothesis Hrun : process_file time_id df = inr o.

(** Row [i] of the run: its two measurements sit in two float64 columns. *)
Lemma run_row i b a :
  float_at "ace_before" i df = Some b ->
  float_at "ace_after" i df = Some a ->
  exists before after,
    get_col "ace_before" df = Some (FloatCol before) /\
    get_col "ace_after" df = Some (FloatCol after) /\
    nth_error before i = Some b /\ nth_error after i = Some a.
Proof.
  intros Hb Ha.
  apply float_at_get in Hb. destruct Hb as (before & Hb & Hbi).
  apply float_at_get in Ha. destruct Ha as (after & Ha & Hai).
  now exists before, after.
Qed.

(** Row [i] of the estimated column. *)
Lemma run_estimated_cell i b s :
  float_at "ace_before" i df = Some b ->
  int_at "anomaly_score" i (table1 o) = Some s ->
  float_at "estimated" i (table2 o)
    = Some (estimated (capped_class (avg_error_pct o)) (capped_pct o) b s).
Proof.
  intros Hb Hs.
  destruct (process_file_reads _ _ _ Hrun) as (before & after & Hcb & Hca).
  destruct (process_file_inv _ _ _ _ _ Hcb Hca Hrun)
    as (Ht1 & Ht2 & _ & Hpct & _ & Hcap).
  assert (Hbi : nth_error before i = Some b)
    by (unfold float_at in Hb; now rewrite Hcb in Hb).
  rewrite Ht1 in Hs. apply int_at_scores in Hs.
  unfold float_at. rewrite Ht2, get_set_eq, Hcap, Hpct. now apply estimates_cell.
Qed.


(** C1: for every input row with finite before and after, the classifier
    gives anomaly_score = +1 when before differs from after and -1
    otherwise; the direction "more" when after > before, "less" when
    after < before and "equal" otherwise; and the error |after - before|
    when the two differ and exactly 0.0 when they are equal. *)
Theorem classifier_row i b a :
  float_at "ace_before" i df = Some b ->
  float_at "ace_after" i df = Some a ->
  F64.is_finite b = true -> F64.is_finite a = true ->
  int_at "anomaly_score" i (table1 o) = Some (if Py.ne b a then 1 else -1) /\
  str_at "more_or_less" i (table1 o) =
    Some (if Py.gt a b then "more" else if Py.lt a b then "less" else "equal")%string /\
  float_at "error" i (table1 o) =
    Some (if Py.ne b a then F64.abs (F64.sub a b) else F64.zero).
Proof.
  intros Hb Ha _ _.
  destruct (run_row _ _ _ Hb Ha) as (before & after & Hcb & Hca & Hbi & Hai).
  destruct (process_file_inv _ _ _ _ _ Hcb Hca Hrun) as (-> & _).
  destruct (detect_cells before after df i b a Hbi Hai) as (Hs & _ & Hd & He).
  now rewrite Hs, Hd, He.
Qed.

(** The rounded estimate of an anomalous row, on either side of the
    ceiling. *)
Lemma run_rounded_cell i b s :
  float_at "ace_before" i df = Some b ->
  int_at "anomaly_score" i (table1 o) = Some s ->
  s <> -1 ->
  float_at "estimated" i (table2 o)
  = Some (if F64.ltb cap (avg_error_pct o)
          then Py.float_round (product (capped_pct o) b) 4
          else Np.round (product (capped_pct o) b) 4).
Proof.
  intros Hb Hs Hne. rewrite (run_estimated_cell _ _ _ Hb Hs).
  unfold estimated, capped_class, Py.min_class, Py.round.
  replace (s =? -1) with false by (symmetry; apply Z.eqb_neq; exact Hne).
  now destruct (F64.ltb cap (avg_error_pct o)).
Qed.

(** C2, as the code has it: the estimated value of a row is its before
    value as it is when anomaly_score = -1.  Otherwise it is
    round(before * (1 + capped_pct/100), 4) under the [__round__] of the
    class of capped_pct.  Above the ceiling that is Python's: the float
    nearest to n / 10^4 for an integer n nearest to the exact product times
    10^4.  Otherwise it is numpy's: rint(product * 10^4) / 10^4, so n is an
    integer nearest to the float product * 10^4.  The after column is not
    read: two runs that agree on the before column, the score column,
    capped_pct and the side of the ceiling agree on the estimated column. *)
Theorem estimated_row i b s :
  float_at "ace_before" i df = Some b ->
  int_at "anomaly_score" i (table1 o) = Some s ->
  float_at "estimated" i (table2 o) =
    Some (if s =? -1 then b
          else if F64.ltb cap (avg_error_pct o)
               then Py.float_round (product (capped_pct o) b) 4
               else F64.div (Np.rint (F64.mul (product (capped_pct o) b) (F64.of_Z 10000)))
                      (F64.of_Z 10000)) /\
  (s = -1 -> float_at "estimated" i (table2 o) = Some b) /\
  (forall sp m e,
     s <> -1 -> F64.ltb cap (avg_error_pct o) = true ->
     product (capped_pct o) b = S754_finite sp m e ->
     exists n,
       float_at "estimated" i (table2 o)
         = Some (match n with
                 | Zpos p => SFdiv F64.prec F64.emax (S754_finite sp p 0)
                               (S754_finite false 10000 0)
                 | _ => S754_zero sp
                 end) /\
       Z.abs (2 * steps_num m e - 2 * n * steps_den e) <= steps_den e) /\
  (forall sy my ey,
     s <> -1 -> F64.ltb cap (avg_error_pct o) = false ->
     F64.mul (product (capped_pct o) b) (F64.of_Z 10000) = S754_finite sy my ey ->
     ey < 0 ->
     exists n,
       float_at "estimated" i (table2 o)
         = Some (F64.div (F64.of_signed sy n) (F64.of_Z 10000)) /\
       Z.abs (2 * Zpos my - 2 * n * 2 ^ (- ey)) <= 2 ^ (- ey)) /\
  forall time_id' df' o',
    process_file time_id' df' = inr o' ->
    get_col "ace_before" df' = get_col "ace_before" df ->
    get_col "anomaly_score" (table1 o') = get_col "anomaly_score" (table1 o) ->
    capped_pct o' = capped_pct o ->
    F64.ltb cap (avg_error_pct o') = F64.ltb cap (avg_error_pct o) ->
    get_col "estimated" (table2 o') = get_col "estimated" (table2 o).
Proof.
  intros Hb Hs.
  pose proof (run_estimated_cell _ _ _ Hb Hs) as Hcell.
  split; [|split; [|split; [|split]]].
  - rewrite Hcell. unfold estimated. destruct (s =? -1); [reflexivity|].
    unfold capped_class, Py.min_class, Py.round.
    now destruct (F64.ltb cap (avg_error_pct o)).
  - intros ->. exact Hcell.
  - intros sp m e Hne Hc Hp. rewrite (run_rounded_cell _ _ _ Hb Hs Hne), Hc, Hp.
    exists (Py.scaled m e 4). split.
    + cbn [Py.float_round]. now rewrite nearest_decimal_4.
    + exact (proj1 (scaled_nearest m e)).
  - intros sy my ey Hne Hc Hy He.
    rewrite (run_rounded_cell _ _ _ Hb Hs Hne), Hc, (np_round_scaled _ _ _ _ Hy He).
    exists (round_half_even (Zpos my) (2 ^ (- ey))). split; [reflexivity|].
    apply round_half_even_spec; [lia | apply pow2_pos; lia].
  - intros time_id' df' o' Hrun' Hsame Hsc Hc Hside.
    destruct (process_file_reads _ _ _ Hrun) as (before & after & Hcb & Hca).
    destruct (process_file_inv _ _ _ _ _ Hcb Hca Hrun)
      as (Ht1 & Ht2 & _ & Hpct & _ & Hcap).
    destruct (process_file_reads _ _ _ Hrun') as (before' & after' & Hcb' & Hca').
    destruct (process_file_inv _ _ _ _ _ Hcb' Hca' Hrun')
      as (Ht1' & Ht2' & _ & Hpct' & _ & Hcap').
    rewrite Ht2, Ht2', !get_set_eq. do 2 f_equal.
    rewrite Hcb, Hcb' in Hsame. injection Hsame as ->.
    rewrite Ht1, Ht1' in Hsc. unfold detect in Hsc. revert Hsc. frame.
    intros [= Hsc]. unfold estimates. rewrite Hsc.
    rewrite <- Hcap, <- Hcap', Hc. unfold capped_class, Py.min_class.
    rewrite <- Hpct, <- Hpct', Hside. reflexivity.
Qed.


(** C4: on every row with finite measurements the four detection fields
    agree: is_anomaly holds iff anomaly_score = +1, iff error > 0, iff the
    direction is not "equal". *)
Theorem detection_consistent i b a :
  float_at "ace_before" i df = Some b ->
  float_at "ace_after" i df = Some a ->
  float64 b -> float64 a ->
  exists flag score dir err,
    bool_at "is_anomaly" i (table1 o) = Some flag /\
    int_at "anomaly_score" i (table1 o) = Some score /\
    str_at "more_or_less" i (table1 o) = Some dir /\
    float_at "error" i (table1 o) = Some err /\
    (flag = true <-> score = 1) /\
    (score = 1 <-> F64.ltb F64.zero err = true) /\
    (F64.ltb F64.zero err = true <-> dir <> "equal"%string).
Proof.
  intros Hb Ha Fb Fa.
  destruct (run_row _ _ _ Hb Ha) as (before & after & Hcb & Hca & Hbi & Hai).
  destruct (process_file_inv _ _ _ _ _ Hcb Hca Hrun) as (-> & _).
  destruct (detect_cells before after df i b a Hbi Hai) as (Hs & Hf & Hd & He).
  exists (is_anomaly (anomaly_score b a)), (anomaly_score b a),
    (more_or_less b a), (error b a).
  repeat (split; [assumption|]).
  pose proof (direction_equal b a (proj2 Fb) (proj2 Fa)) as Hdir.
  unfold is_anomaly, anomaly_score.
  destruct (Py.ne b a) eqn:Hne.
  - rewrite (error_positive b a Fb Fa Hne).
    repeat split; auto; intros _ Heq; apply Hdir in Heq; discriminate Heq.
  - rewrite (error_zero b a Hne). simpl.
    repeat split; try discriminate; intros H; exfalso; apply H; now apply Hdir.
Qed.

(** C7: a second run on any frame that carries Table A's before and after
    columns (Table A itself is one) reproduces the four detection columns
    and the four summary scalars of the first run; on Table A itself both
    tables come out identical. *)
Theorem rerun_reproduces time_id' df' :
  get_col "ace_before" df' = get_col "ace_before" (table1 o) ->
  get_col "ace_after" df' = get_col "ace_after" (table1 o) ->
  exists o',
    process_file time_id' df' = inr o' /\
    (forall name, In name detection_columns ->
       get_col name (table1 o') = get_col name (table1 o)) /\
    get_col "estimated" (table2 o') = get_col "estimated" (table2 o) /\
    avg_error o' = avg_error o /\
    avg_error_pct o' = avg_error_pct o /\
    total_error o' = total_error o /\
    capped_pct o' = capped_pct o /\
    (df' = table1 o -> table1 o' = table1 o /\ table2 o' = table2 o).
Proof.
  intros Hb' Ha'.
  destruct (process_file_reads _ _ _ Hrun) as (before & after & Hb & Ha).
  destruct (process_file_inv _ _ _ _ _ Hb Ha Hrun)
    as (Ht1 & Ht2 & Havg & Hpct & Htot & Hcap).
  destruct (detect_measurements before after df) as [Kb Ka].
  rewrite Ht1, Kb, Hb in Hb'. rewrite Ht1, Ka, Ha in Ha'.
  destruct (process_file_runs time_id' df' _ _ Hb' Ha') as [o' Hrun'].
  destruct (process_file_inv _ _ _ _ _ Hb' Ha' Hrun')
    as (Ht1' & Ht2' & Havg' & Hpct' & Htot' & Hcap').
  exists o'. split; [exact Hrun'|].
  rewrite Ht1, Ht2, Ht1', Ht2', Havg, Havg', Hpct, Hpct', Htot, Htot', Hcap, Hcap'.
  split; [intros name Hin; now apply detect_columns_only|].
  rewrite !get_set_eq. repeat (split; [reflexivity|]).
  intros ->. now rewrite detect_idem.
Qed.

(** C8, as the code has it: every input column whose name is not one of
    the derived names (anomaly_score, is_anomaly, more_or_less, error, and
    estimated for Table B) is found in Table A and in Table B with its input
    values, and every column of either table is such an input column or a
    derived one. *)
Theorem passthrough name :
  (~ In name detection_columns -> get_col name (table1 o) = get_col name df) /\
  (~ In name derived_columns -> get_col name (table2 o) = get_col name df) /\
  (forall c, get_col name (table1 o) = Some c ->
     In name detection_columns \/ get_col name df = Some c) /\
  (forall c, get_col name (table2 o) = Some c ->
     In name derived_columns \/ get_col name df = Some c).
Proof.
  destruct (process_file_reads _ _ _ Hrun) as (before & after & Hb & Ha).
  destruct (process_file_inv _ _ _ _ _ Hb Ha Hrun) as (Ht1 & Ht2 & _).
  rewrite Ht1, Ht2.
  assert (H1 : ~ In name detection_columns ->
               get_col name (detect before after df) = get_col name df)
    by apply detect_keeps.
  assert (H2 : ~ In name derived_columns ->
               get_col name (set_col "estimated" (FloatCol (estimates before after))
                               (detect before after df)) = get_col name df).
  { intros Hn. rewrite get_set_ne.
    - apply detect_keeps. intros Hin. apply Hn. unfold derived_columns.
      apply in_or_app. now left.
    - intros <-. apply Hn. unfold derived_columns. apply in_or_app. right. now left. }
  repeat split; auto.
  - intros c Hc. destruct (in_dec string_dec name detection_columns) as [Hin|Hn]; auto.
    right. now rewrite <- H1.
  - intros c Hc. destruct (in_dec string_dec name derived_columns) as [Hin|Hn]; auto.
    right. now rewrite <- H2.
Qed.

(** C9, as the code has it: on an anomalous row whose product
    before * (1 + capped_pct/100) is the finite float of exact value
    m * 2^e, the rounding goes half to even on the path taken.  Above the
    ceiling the estimate is the float nearest to n / 10^4 for the integer n
    nearest to m * 2^e * 10^4, an exact tie going to the even n.  Otherwise
    n is the integer nearest to the float product * 10^4, an exact tie of
    that float going to the even n.  When the product is itself an exact
    tie (k + 1/2) / 10^4 with 2k + 1 < 2^53, both paths give the float
    nearest to n / 10^4 for the even one of k and k + 1. *)
Theorem rounding_half_even i b s m e :
  float_at "ace_before" i df = Some b ->
  int_at "anomaly_score" i (table1 o) = Some 1 ->
  product (capped_pct o) b = S754_finite s m e ->
  (forall k,
     2 * steps_num m e = (2 * k + 1) * steps_den e -> 2 * k + 1 < 2 ^ 53 ->
     float_at "estimated" i (table2 o)
       = Some (F64.div (F64.of_signed s (if Z.even k then k else k + 1))
                 (F64.of_Z 10000))) /\
  (F64.ltb cap (avg_error_pct o) = true ->
   exists n,
     float_at "estimated" i (table2 o)
       = Some (match n with
               | Zpos p => SFdiv F64.prec F64.emax (S754_finite s p 0)
                             (S754_finite false 10000 0)
               | _ => S754_zero s
               end) /\
     Z.abs (2 * steps_num m e - 2 * n * steps_den e) <= steps_den e /\
     (Z.abs (2 * steps_num m e - 2 * n * steps_den e) = steps_den e ->
      Z.even n = true /\
      (Z.even (steps_num m e / steps_den e) = true -> n = steps_num m e / steps_den e))) /\
  (F64.ltb cap (avg_error_pct o) = false ->
   forall sy my ey,
     F64.mul (S754_finite s m e) (F64.of_Z 10000) = S754_finite sy my ey -> ey < 0 ->
     exists n,
       float_at "estimated" i (table2 o)
         = Some (F64.div (F64.of_signed sy n) (F64.of_Z 10000)) /\
       Z.abs (2 * Zpos my - 2 * n * 2 ^ (- ey)) <= 2 ^ (- ey) /\
       (Z.abs (2 * Zpos my - 2 * n * 2 ^ (- ey)) = 2 ^ (- ey) ->
        Z.even n = true /\
        (Z.even (Zpos my / 2 ^ (- ey)) = true -> n = Zpos my / 2 ^ (- ey)))).
Proof.
  intros Hb Hs Hp.
  pose proof (run_rounded_cell _ _ _ Hb Hs ltac:(discriminate)) as Hcell.
  rewrite Hp in Hcell. split; [|split].
  - intros k Ht Hk. rewrite Hcell.
    rewrite (float_round_tie s m e k Ht Hk), (np_round_tie s m e k Ht Hk).
    now destruct (F64.ltb cap (avg_error_pct o)).
  - intros Hc. rewrite Hc in Hcell. exists (Py.scaled m e 4). split.
    + rewrite Hcell. cbn [Py.float_round]. now rewrite nearest_decimal_4.
    + apply scaled_nearest.
  - intros Hc sy my ey Hy He. rewrite Hc, (np_round_scaled _ _ _ _ Hy He) in Hcell.
    exists (round_half_even (Zpos my) (2 ^ (- ey))). split; [exact Hcell|].
    apply round_half_even_spec; [lia | apply pow2_pos; lia].
Qed.

(** C10, as the code has it: on an anomalous row with before > 0 and
    capped_pct > 0, whatever the direction, the float
    before * (1 + capped_pct/100) is at least before, and estimated is that
    product under [round(..., 4)] of the class of capped_pct. *)
Theorem correction_upward i b :
  float_at "ace_before" i df = Some b ->
  int_at "anomaly_score" i (table1 o) = Some 1 ->
  float64 b ->
  F64.ltb F64.zero b = true ->
  F64.ltb F64.zero (capped_pct o) = true ->
  F64.leb b (product (capped_pct o) b) = true /\
  float_at "estimated" i (table2 o)
    = Some (if F64.ltb cap (avg_error_pct o)
            then Py.float_round (product (capped_pct o) b) 4
            else Np.round (product (capped_pct o) b) 4).
Proof.
  intros Hb Hs Fb Hpos Hc. split.
  - now apply product_not_below.
  - apply (run_rounded_cell _ _ _ Hb Hs). discriminate.
Qed.

End Run.

(** ** Inputs the pipeline does not reject *)

(** C5, as the code has it: a sheet without data rows raises nothing.  The
    run returns both tables, with every derived column empty, total_error
    0.0, and NaN for avg_error, avg_error_pct and capped_pct. *)
Theorem empty_input_runs time_id df :
  get_col "ace_before" df = Some (FloatCol []) ->
  get_col "ace_after" df = Some (FloatCol []) ->
  exists o,
    process_file time_id df = inr o /\
    get_col "anomaly_score" (table1 o) = Some (IntCol []) /\
    get_col "is_anomaly" (table1 o) = Some (BoolCol []) /\
    get_col "more_or_less" (table1 o) = Some (ObjCol []) /\
    get_col "error" (table1 o) = Some (FloatCol []) /\
    get_col "estimated" (table2 o) = Some (FloatCol []) /\
    avg_error o = F64.nan /\
    avg_error_pct o = F64.nan /\
    total_error o = F64.zero /\
    capped_pct o = F64.nan.
Proof.
  intros Hb Ha.
  destruct (process_file_runs time_id df _ _ Hb Ha) as [o Hrun].
  destruct (process_file_inv _ _ _ _ _ Hb Ha Hrun) as (Ht1 & Ht2 & Havg & Hpct & Htot & Hcap).
  exists o. rewrite Ht1, Ht2, Havg, Hpct, Htot, Hcap. unfold detect. frame.
  split; [exact Hrun|]. repeat split; reflexivity.
Qed.

(** The claim C5 fails on the empty sheet: no exception, and NaN scalars. *)
Lemma empty_input_not_rejected :
  (forall e, process_file "20240101_000000" empty_frame <> inl e) /\
  exists o, process_file "20240101_000000" empty_frame = inr o /\
    F64.is_nan (avg_error o) = true /\
    F64.is_nan (avg_error_pct o) = true /\
    F64.is_nan (capped_pct o) = true.
Proof.
  split.
  - intros e H. discriminate H.
  - eexists. split; [reflexivity|]. repeat split.
Qed.

(** C6, as the code has it: when the mean of the before column is zero the
    run raises nothing.  It returns both tables, and avg_error_pct is NaN or
    an infinity. *)
Theorem zero_baseline_runs time_id df before after :
  get_col "ace_before" df = Some (FloatCol before) ->
  get_col "ace_after" df = Some (FloatCol after) ->
  before <> [] ->
  F64.eqb (mean before) F64.zero = true ->
  exists o,
    process_file time_id df = inr o /\
    avg_error_pct o = F64.mul (F64.div (avg_error o) (mean before)) (F64.of_Z 100) /\
    F64.is_finite (avg_error_pct o) = false /\
    get_col "error" (table1 o) = Some (FloatCol (errors before after)) /\
    get_col "estimated" (table2 o) = Some (FloatCol (estimates before after)).
Proof.
  intros Hb Ha _ Hz.
  destruct (process_file_runs time_id df _ _ Hb Ha) as [o Hrun].
  destruct (process_file_inv _ _ _ _ _ Hb Ha Hrun) as (Ht1 & Ht2 & Havg & Hpct & Htot & Hcap).
  exists o. rewrite Ht1, Ht2, Havg, Hpct. unfold detect. frame.
  split; [exact Hrun|]. repeat split. unfold pct.
  destruct (eqb_zero _ Hz) as [s ->].
  apply mul_hundred_not_finite, div_by_zero.
Qed.

(** The claim C6 fails on a single row 0.0, 0.0: no exception, both tables
    returned, avg_error_pct and capped_pct NaN. *)
Lemma zero_baseline_not_rejected :
  (forall e, process_file "20240101_000000" zero_frame <> inl e) /\
  exists o, process_file "20240101_000000" zero_frame = inr o /\
    F64.eqb (mean [F64.zero]) F64.zero = true /\
    F64.is_nan (avg_error_pct o) = true /\
    F64.is_nan (capped_pct o) = true /\
    get_col "estimated" (table2 o) = Some (FloatCol [F64.zero]).
Proof.
  split.
  - intros e H. discriminate H.
  - eexists. split; [reflexivity|]. repeat split.
Qed.

(** ** The claims on the sample workbooks *)

Example scenario_run :
  exists o, process_file "20240101_000000" scenario_frame = inr o /\
    get_col "anomaly_score" (table1 o) = Some (IntCol [-1; 1; 1]) /\
    get_col "is_anomaly" (table1 o) = Some (BoolCol [false; true; true]) /\
    get_col "more_or_less" (table1 o) = Some (ObjCol ["equal"; "more"; "less"]%string) /\
    get_col "error" (table1 o) = Some (FloatCol [F64.zero; F64.of_Z 2; F64.of_Z 1]) /\
    get_col "estimated" (table2 o)
      = Some (FloatCol [F64.of_Z 10; F64.dyadic 21 1; F64.dyadic 21 2]) /\
    avg_error o = F64.of_Z 1 /\
    total_error o = F64.of_Z 3 /\
    capped_pct o = F64.of_Z 5 /\
    file1 o = "output/table1_raw_20240101_000000.xlsx"%string.
Proof.
  eexists. split; [reflexivity|]. repeat split; vm_compute; reflexivity.
Qed.

Lemma classifier_row_witness :
  exists o, process_file "20240101_000000" scenario_frame = inr o /\
    int_at "anomaly_score" 1 (table1 o)
      = Some (if Py.ne (F64.of_Z 10) (F64.of_Z 12) then 1 else -1) /\
    str_at "more_or_less" 1 (table1 o)
      = Some (if Py.gt (F64.of_Z 12) (F64.of_Z 10) then "more"
              else if Py.lt (F64.of_Z 12) (F64.of_Z 10) then "less" else "equal")%string /\
    float_at "error" 1 (table1 o)
      = Some (if Py.ne (F64.of_Z 10) (F64.of_Z 12)
              then F64.abs (F64.sub (F64.of_Z 12) (F64.of_Z 10)) else F64.zero).
Proof.
  eexists. split; [reflexivity|].
  apply (classifier_row "20240101_000000" scenario_frame _ eq_refl 1
           (F64.of_Z 10) (F64.of_Z 12)); reflexivity.
Defined.

(** On [ceiling_frame] and [above_frame] the first row has the same
    before value, the same score and the same capped_pct, 5.0; the error
    percentage is 5.0 on the one and 10.0 on the other, and the product
    0.13125... is rounded to 0.1312 by numpy and to 0.1313 by Python. *)
Lemma same_inputs_other_estimate :
  exists o o',
    process_file "20240101_000000" ceiling_frame = inr o /\
    process_file "20240101_000000" above_frame = inr o' /\
    get_col "ace_before" above_frame = get_col "ace_before" ceiling_frame /\
    get_col "anomaly_score" (table1 o') = get_col "anomaly_score" (table1 o) /\
    int_at "anomaly_score" 0 (table1 o) = Some 1 /\
    avg_error_pct o = F64.of_Z 5 /\
    avg_error_pct o' = F64.of_Z 10 /\
    capped_pct o = F64.of_Z 5 /\
    capped_pct o' = F64.of_Z 5 /\
    float_at "estimated" 0 (table2 o) = Some (F64.div (F64.of_Z 1312) (F64.of_Z 10000)) /\
    float_at "estimated" 0 (table2 o') = Some (F64.div (F64.of_Z 1313) (F64.of_Z 10000)) /\
    F64.div (F64.of_Z 1312) (F64.of_Z 10000) <> F64.div (F64.of_Z 1313) (F64.of_Z 10000).
Proof.
  eexists. eexists. split; [reflexivity|]. split; [reflexivity|].
  repeat (split; [vm_compute; reflexivity|]). vm_compute. discriminate.
Qed.

(** Below the ceiling the estimate can leave the floats: on [huge_frame]
    the product is finite while its multiple by 10^4 is not. *)
Example estimate_overflows :
  exists o, process_file "20240101_000000" huge_frame = inr o /\
    F64.ltb cap (avg_error_pct o) = false /\
    F64.is_finite (product (capped_pct o) (S754_finite false 4503599627370496 960)) = true /\
    float_at "estimated" 0 (table2 o) = Some (S754_infinity false).
Proof.
  eexists. split; [reflexivity|]. repeat split; vm_compute; reflexivity.
Qed.

Lemma estimated_row_witness :
  exists o, process_file "20240101_000000" ceiling_frame = inr o /\
    float_at "estimated" 0 (table2 o)
      = Some (if 1 =? -1 then F64.dyadic 1 3
              else if F64.ltb cap (avg_error_pct o)
                   then Py.float_round (product (capped_pct o) (F64.dyadic 1 3)) 4
                   else F64.div
                          (Np.rint (F64.mul (product (capped_pct o) (F64.dyadic 1 3))
                                      (F64.of_Z 10000)))
                          (F64.of_Z 10000)).
Proof.
  eexists. split; [reflexivity|].
  apply (estimated_row "20240101_000000" ceiling_frame _ eq_refl 0 (F64.dyadic 1 3) 1);
    reflexivity.
Defined.


Lemma detection_consistent_witness :
  exists o, process_file "20240101_000000" scenario_frame = inr o /\
  exists flag score dir err,
    bool_at "is_anomaly" 2 (table1 o) = Some flag /\
    int_at "anomaly_score" 2 (table1 o) = Some score /\
    str_at "more_or_less" 2 (table1 o) = Some dir /\
    float_at "error" 2 (table1 o) = Some err /\
    (flag = true <-> score = 1) /\
    (score = 1 <-> F64.ltb F64.zero err = true) /\
    (F64.ltb F64.zero err = true <-> dir <> "equal"%string).
Proof.
  eexists. split; [reflexivity|].
  apply (detection_consistent "20240101_000000" scenario_frame _ eq_refl 2
           (F64.of_Z 5) (F64.of_Z 4));
    try reflexivity; split; reflexivity.
Defined.

Lemma empty_input_runs_witness :
  exists o,
    process_file "20240101_000000" empty_frame = inr o /\
    get_col "anomaly_score" (table1 o) = Some (IntCol []) /\
    get_col "is_anomaly" (table1 o) = Some (BoolCol []) /\
    get_col "more_or_less" (table1 o) = Some (ObjCol []) /\
    get_col "error" (table1 o) = Some (FloatCol []) /\
    get_col "estimated" (table2 o) = Some (FloatCol []) /\
    avg_error o = F64.nan /\
    avg_error_pct o = F64.nan /\
    total_error o = F64.zero /\
    capped_pct o = F64.nan.
Proof.
  apply (empty_input_runs "20240101_000000" empty_frame); reflexivity.
Defined.

Lemma zero_baseline_runs_witness :
  exists o,
    process_file "20240101_000000" zero_frame = inr o /\
    avg_error_pct o = F64.mul (F64.div (avg_error o) (mean [F64.zero])) (F64.of_Z 100) /\
    F64.is_finite (avg_error_pct o) = false /\
    get_col "error" (table1 o) = Some (FloatCol (errors [F64.zero] [F64.zero])) /\
    get_col "estimated" (table2 o) = Some (FloatCol (estimates [F64.zero] [F64.zero])).
Proof.
  apply (zero_baseline_runs "20240101_000000" zero_frame [F64.zero] [F64.zero]);
    try reflexivity. discriminate.
Defined.

Lemma rerun_reproduces_witness :
  exists o, process_file "20240101_000000" scenario_frame = inr o /\
  exists o',
    process_file "20240102_000000" (table1 o) = inr o' /\
    table1 o' = table1 o /\ table2 o' = table2 o /\
    capped_pct o' = capped_pct o.
Proof.
  eexists. split; [reflexivity|].
  destruct (rerun_reproduces "20240101_000000" scenario_frame _ eq_refl
              "20240102_000000" _ eq_refl eq_refl)
    as (o' & Hrun & _ & _ & _ & _ & _ & Hc & Hsame).
  exists o'. destruct (Hsame eq_refl) as [H1 H2]. repeat split; assumption.
Defined.

(** The claim C8 fails when an input column bears a derived name: the
    fourth column of [collision_frame] is replaced by the computed errors. *)
Lemma colliding_column_overwritten :
  exists o,
    process_file "20240101_000000" collision_frame = inr o /\
    get_col "error" collision_frame = Some (ObjCol ["sensor fault"%string]) /\
    get_col "error" (table1 o) = Some (FloatCol [F64.of_Z 2]) /\
    get_col "error" (table2 o) = Some (FloatCol [F64.of_Z 2]) /\
    get_col "error" (table1 o) <> get_col "error" collision_frame.
Proof.
  eexists. split; [reflexivity|]. repeat split. discriminate.
Qed.

Lemma passthrough_witness :
  exists o, process_file "20240101_000000" collision_frame = inr o /\
    get_col "timestamp" (table1 o) = get_col "timestamp" collision_frame /\
    get_col "ace_after" (table2 o) = get_col "ace_after" collision_frame.
Proof.
  eexists. split; [reflexivity|]. split.
  - apply (passthrough "20240101_000000" collision_frame _ eq_refl "timestamp").
    simpl. intros H. repeat (destruct H as [H|H]; [discriminate H|]). exact H.
  - apply (passthrough "20240101_000000" collision_frame _ eq_refl "ace_after").
    simpl. intros H. repeat (destruct H as [H|H]; [discriminate H|]). exact H.
Defined.

(** On [tie_frame] the product is 1.03125 exactly, halfway between 10312
    and 10313 steps of 0.0001. *)
Lemma rounding_half_even_tie :
  exists o, process_file "20240101_000000" tie_frame = inr o /\
    float_at "estimated" 0 (table2 o)
      = Some (F64.div (F64.of_signed false (if Z.even 10312 then 10312 else 10312 + 1))
                (F64.of_Z 10000)).
Proof.
  eexists. split; [reflexivity|].
  apply (rounding_half_even "20240101_000000" tie_frame _ eq_refl 0 (F64.of_Z 1) false
           4644337115725824 (-52) eq_refl eq_refl eq_refl); reflexivity.
Defined.

(** There the estimate is 1.0312, the even neighbour, and not 1.0313. *)
Example tie_goes_to_even :
  exists o, process_file "20240101_000000" tie_frame = inr o /\
    capped_pct o = F64.dyadic 25 3 /\
    float_at "estimated" 0 (table2 o) = Some (Py.nearest_decimal false 10312 4) /\
    Py.nearest_decimal false 10312 4 <> Py.nearest_decimal false 10313 4.
Proof.
  eexists. split; [reflexivity|]. split; [reflexivity|]. split; [reflexivity|].
  vm_compute. discriminate.
Qed.

(** The claim C9 fails on [large_tie_frame].  The row is anomalous, the
    run is below the ceiling, and the product is 2000000000000.09375, an
    exact tie between 20000000000000937 and 20000000000000938 steps of
    0.0001.  The float nearest to the even neighbour is the product itself;
    the estimate is the float below it, as the product times 10^4 is
    rounded to a multiple of 4 before [rint] sees it. *)
Lemma large_tie_not_to_even :
  exists o,
    process_file "20240101_000000" large_tie_frame = inr o /\
    int_at "anomaly_score" 0 (table1 o) = Some 1 /\
    F64.ltb cap (avg_error_pct o) = false /\
    product (capped_pct o) (F64.dyadic 64000000000003 5)
      = S754_finite false 8192000000000384 (-12) /\
    2 * steps_num 8192000000000384 (-12)
      = (2 * 20000000000000937 + 1) * steps_den (-12) /\
    Py.nearest_decimal false 20000000000000938 4
      = S754_finite false 8192000000000384 (-12) /\
    F64.mul (S754_finite false 8192000000000384 (-12)) (F64.of_Z 10000)
      = F64.of_Z 20000000000000936 /\
    float_at "estimated" 0 (table2 o) = Some (S754_finite false 8192000000000383 (-12)) /\
    float_at "estimated" 0 (table2 o)
      <> Some (Py.nearest_decimal false 20000000000000938 4).
Proof.
  eexists. split; [reflexivity|].
  repeat (split; [vm_compute; reflexivity|]). vm_compute. discriminate.
Qed.

(** A product that is no tie can be rounded as one: on [near_tie_frame]
    the product lies above the midpoint of 1.0002 and 1.0003, its multiple
    by 10^4 is the float 10002.5, and the estimate is 1.0002. *)
Example near_tie_rounded_down :
  exists o m e,
    process_file "20240101_000000" near_tie_frame = inr o /\
    F64.ltb cap (avg_error_pct o) = false /\
    product (capped_pct o) (F64.of_Z 1) = S754_finite false m e /\
    (2 * 10002 + 1) * steps_den e < 2 * steps_num m e /\
    F64.mul (S754_finite false m e) (F64.of_Z 10000) = F64.dyadic 20005 1 /\
    float_at "estimated" 0 (table2 o) = Some (F64.div (F64.of_Z 10002) (F64.of_Z 10000)).
Proof.
  eexists. eexists. eexists. split; [reflexivity|].
  split; [reflexivity|]. split; [vm_compute; reflexivity|].
  repeat split; vm_compute; reflexivity.
Qed.

(** The claim C10 fails on [small_frame]: the row is anomalous with
    direction "less", before and capped_pct are positive, and the estimate
    is 0.0, below before and equal to after. *)
Lemma correction_not_upward :
  exists o,
    process_file "20240101_000000" small_frame = inr o /\
    int_at "anomaly_score" 0 (table1 o) = Some 1 /\
    str_at "more_or_less" 0 (table1 o) = Some "less"%string /\
    float64 (F64.dyadic 1 15) /\
    F64.ltb F64.zero (F64.dyadic 1 15) = true /\
    capped_pct o = F64.of_Z 5 /\
    F64.ltb F64.zero (capped_pct o) = true /\
    float_at "estimated" 0 (table2 o) = Some F64.zero /\
    F64.ltb (F64.dyadic 1 15) F64.zero = false.
Proof.
  eexists. split; [reflexivity|]. repeat split.
Qed.

Lemma correction_upward_witness :
  exists o, process_file "20240101_000000" scenario_frame = inr o /\
    F64.leb (F64.of_Z 5) (product (capped_pct o) (F64.of_Z 5)) = true /\
    float_at "estimated" 2 (table2 o)
      = Some (if F64.ltb cap (avg_error_pct o)
              then Py.float_round (product (capped_pct o) (F64.of_Z 5)) 4
              else Np.round (product (capped_pct o) (F64.of_Z 5)) 4).
Proof.
  eexists. split; [reflexivity|].
  apply (correction_upward "20240101_000000" scenario_frame _ eq_refl 2 (F64.of_Z 5));
    try reflexivity. split; reflexivity.
Defined.

(** * Further properties of [process_file] *)

(** ** Column names and row counts *)

Lemma names_set_col name c df :
  names (set_col name c df) = (names df ++ (if has_column name df then [] else [name]))%list.
Proof.
  unfold has_column, names. induction df as [|[n c0] rest IH]; simpl; [reflexivity|].
  rewrite (String.eqb_sym name n).
  destruct (String.eqb n name); simpl; [now rewrite app_nil_r|].
  now rewrite IH.
Qed.

Lemma has_column_set_col name other c df :
  has_column name (set_col other c df) = has_column name df || String.eqb name other.
Proof.
  unfold has_column. rewrite names_set_col. fold (has_column other df).
  rewrite existsb_app. destruct (has_column other df) eqn:E; simpl.
  - destruct (String.eqb name other) eqn:En; [|now rewrite orb_false_r].
    apply String.eqb_eq in En. subst other. unfold has_column in E. rewrite E. reflexivity.
  - now rewrite orb_false_r.
Qed.

Lemma has_column_get name df : has_column name df = true <-> get_col name df <> None.
Proof.
  unfold has_column, names. induction df as [|[n c] rest IH]; simpl.
  - split; [discriminate|congruence].
  - rewrite (String.eqb_sym name n). destruct (String.eqb n name); simpl; auto.
    split; [discriminate|reflexivity].
Qed.

Lemma has_height_set_col n name c df :
  has_height n df = true -> height c = n -> has_height n (set_col name c df) = true.
Proof.
  unfold has_height. intros Hdf Hc.
  induction df as [|[m c0] rest IH]; simpl in *.
  - now rewrite Hc, Nat.eqb_refl.
  - apply andb_prop in Hdf. destruct Hdf as [H0 Hrest].
    destruct (String.eqb m name); simpl.
    + now rewrite Hc, Nat.eqb_refl, Hrest.
    + now rewrite H0, IH.
Qed.

Lemma has_height_get n name c df :
  has_height n df = true -> get_col name df = Some c -> height c = n.
Proof.
  unfold has_height. induction df as [|[m c0] rest IH]; simpl; [discriminate|].
  intros H Hg. apply andb_prop in H. destruct H as [H0 Hrest].
  destruct (String.eqb m name).
  - injection Hg as <-. now apply Nat.eqb_eq.
  - now apply IH.
Qed.

Lemma names_detect before after df :
  names (detect before after df) = (names df ++ fresh df detection_columns)%list.
Proof.
  unfold detect, fresh. rewrite !names_set_col, !has_column_set_col. simpl.
  rewrite !orb_false_r, <- !app_assoc.
  destruct (has_column "anomaly_score" df), (has_column "is_anomaly" df),
    (has_column "more_or_less" df), (has_column "error" df); reflexivity.
Qed.

Lemma names_table2 before after df c :
  names (set_col "estimated" c (detect before after df))
  = (names df ++ fresh df derived_columns)%list.
Proof.
  rewrite names_set_col, names_detect. unfold detect, fresh, derived_columns.
  rewrite !has_column_set_col. simpl. rewrite !orb_false_r, <- !app_assoc.
  destruct (has_column "anomaly_score" df), (has_column "is_anomaly" df),
    (has_column "more_or_less" df), (has_column "error" df),
    (has_column "estimated" df); reflexivity.
Qed.

Lemma NoDup_names_fresh df cols :
  NoDup (names df) -> NoDup cols -> NoDup (names df ++ fresh df cols).
Proof.
  intros Hdf Hcols. apply NoDup_app; auto.
  - unfold fresh. now apply NoDup_filter.
  - intros a Ha Hf. unfold fresh in Hf. apply filter_In in Hf. destruct Hf as [_ Hf].
    assert (has_column a df = true).
    { unfold has_column. apply existsb_exists. exists a. split; auto. apply String.eqb_refl. }
    rewrite H in Hf. discriminate.
Qed.

Lemma NoDup_derived : NoDup derived_columns.
Proof. repeat constructor; simpl; intuition discriminate. Qed.

(** X2: the columns of Table A are the input's columns in their input
    order, followed by those of anomaly_score, is_anomaly, more_or_less and
    error that the input did not already have; Table B's are the same with
    estimated among the names added.  Unique input names stay unique. *)
Theorem output_columns time_id df o :
  process_file time_id df = inr o ->
  names (table1 o) = (names df ++ fresh df detection_columns)%list /\
  names (table2 o) = (names df ++ fresh df derived_columns)%list /\
  (NoDup (names df) -> NoDup (names (table1 o)) /\ NoDup (names (table2 o))).
Proof.
  intros Hrun.
  destruct (process_file_reads _ _ _ Hrun) as (before & after & Hb & Ha).
  destruct (process_file_inv _ _ _ _ _ Hb Ha Hrun) as (-> & -> & _).
  rewrite names_detect, names_table2. repeat split; auto.
  - apply NoDup_names_fresh; auto.
    apply (NoDup_app_remove_r _ _ NoDup_derived).
  - apply NoDup_names_fresh; auto. apply NoDup_derived.
Qed.

Lemma height_float_col n name xs df :
  has_height n df = true -> get_col name df = Some (FloatCol xs) -> List.length xs = n.
Proof. intros H Hg. exact (has_height_get _ _ _ _ H Hg). Qed.

(** X3: no row is added or dropped: when every input column has [n]
    rows, so has every column of Table A and of Table B. *)
Theorem row_count_kept time_id df o n :
  process_file time_id df = inr o ->
  has_height n df = true ->
  has_height n (table1 o) = true /\ has_height n (table2 o) = true.
Proof.
  intros Hrun Hn.
  destruct (process_file_reads _ _ _ Hrun) as (before & after & Hb & Ha).
  destruct (process_file_inv _ _ _ _ _ Hb Ha Hrun) as (-> & -> & _).
  pose proof (height_float_col _ _ _ _ Hn Hb) as Lb.
  pose proof (height_float_col _ _ _ _ Hn Ha) as La.
  assert (Hrows : List.length (rows before after) = n)
    by (unfold rows; rewrite length_combine; lia).
  assert (Hs : List.length (scores before after) = n)
    by (unfold scores; now rewrite length_map).
  assert (H1 : has_height n (detect before after df) = true).
  { unfold detect. repeat apply has_height_set_col; auto; simpl;
      unfold directions, errors; now rewrite ?length_map. }
  split; [exact H1|].
  apply has_height_set_col; auto. simpl. unfold estimates.
  rewrite length_map, length_combine. lia.
Qed.

(** ** Missing measurement columns *)

(** X1: [process_file] raises [KeyError name] exactly when [name] is a
    measurement column the sheet lacks, ace_before being looked up first:
    ace_after is reported only when ace_before is there, whatever its
    dtype. *)
Theorem key_error time_id df name :
  process_file time_id df = inl (KeyError name) <->
  (name = "ace_before"%string /\ get_col "ace_before" df = None) \/
  (name = "ace_after"%string /\
   get_col "ace_before" df <> None /\
   get_col "ace_after" df = None).
Proof.
  unfold process_file. split.
  - destruct (get_col "ace_before" df) as [[before| | | ]|];
      destruct (get_col "ace_after" df) as [[after| | | ]|]; try discriminate;
      intros [= <-]; try (now left); right; repeat split; discriminate.
  - intros [[-> ->]|(-> & Hb & ->)]; [reflexivity|].
    destruct (get_col "ace_before" df) as [[before| | | ]|]; try reflexivity.
    now elim Hb.
Qed.

(** ** The two snapshot names *)

Lemma string_length_append a b :
  String.length (a ++ b) = (String.length a + String.length b)%nat.
Proof. induction a as [|c a IH]; simpl; auto. Qed.

Lemma append_inv_head s a b : (s ++ a = s ++ b)%string -> a = b.
Proof. induction s as [|c s IH]; simpl; auto. intros [= H]. auto. Qed.

Lemma append_inv_tail s : forall a b, (a ++ s = b ++ s)%string -> a = b.
Proof.
  induction a as [|c a IH]; intros [|c' b] H; simpl in H; auto.
  - apply (f_equal String.length) in H. simpl in H.
    rewrite string_length_append in H. lia.
  - apply (f_equal String.length) in H. simpl in H.
    rewrite string_length_append in H. lia.
  - injection H as -> H. f_equal. auto.
Qed.

Lemma process_file_names time_id df o :
  process_file time_id df = inr o ->
  file1 o = ("output/table1_raw_" ++ time_id ++ ".xlsx")%string /\
  file2 o = ("output/table2_corrected_" ++ time_id ++ ".xlsx")%string.
Proof.
  intros Hrun.
  destruct (process_file_reads _ _ _ Hrun) as (before & after & Hb & Ha).
  revert Hrun. unfold process_file. rewrite Hb, Ha.
  intros [= <-]. split; reflexivity.
Qed.

(** X8: two runs write their Table A snapshot under the same name
    exactly when their clock readings coincide, likewise for Table B, and a
    Table A snapshot never shares its name with a Table B snapshot. *)
Theorem snapshot_names time_id df o time_id' df' o' :
  process_file time_id df = inr o ->
  process_file time_id' df' = inr o' ->
  (file1 o = file1 o' <-> time_id = time_id') /\
  (file2 o = file2 o' <-> time_id = time_id') /\
  file1 o <> file2 o'.
Proof.
  intros Hrun Hrun'.
  destruct (process_file_names _ _ _ Hrun) as [-> ->].
  destruct (process_file_names _ _ _ Hrun') as [-> ->].
  repeat split; try (intros ->; reflexivity).
  - intros H. apply append_inv_head in H. now apply append_inv_tail in H.
  - intros H. apply append_inv_head in H. now apply append_inv_tail in H.
  - simpl. intros H. discriminate H.
Qed.

(** ** Running the pipeline on Table B *)

(** X11: run on its own Table B, the pipeline returns that table as both
    Table A and Table B, with the same four scalars. *)
Theorem rerun_on_table2 time_id df o time_id' :
  process_file time_id df = inr o ->
  exists o',
    process_file time_id' (table2 o) = inr o' /\
    table1 o' = table2 o /\ table2 o' = table2 o /\
    avg_error o' = avg_error o /\ avg_error_pct o' = avg_error_pct o /\
    total_error o' = total_error o /\ capped_pct o' = capped_pct o.
Proof.
  intros Hrun.
  destruct (process_file_reads _ _ _ Hrun) as (before & after & Hb & Ha).
  destruct (process_file_inv _ _ _ _ _ Hb Ha Hrun)
    as (Ht1 & Ht2 & Havg & Hpct & Htot & Hcap).
  destruct (detect_measurements before after df) as [Kb Ka].
  assert (Hb' : get_col "ace_before" (table2 o) = Some (FloatCol before))
    by (rewrite Ht2; frame; now rewrite Kb).
  assert (Ha' : get_col "ace_after" (table2 o) = Some (FloatCol after))
    by (rewrite Ht2; frame; now rewrite Ka).
  destruct (process_file_runs time_id' _ _ _ Hb' Ha') as [o' Hrun'].
  destruct (process_file_inv _ _ _ _ _ Hb' Ha' Hrun')
    as (Ht1' & Ht2' & Havg' & Hpct' & Htot' & Hcap').
  assert (Hsame : detect before after (table2 o) = table2 o).
  { rewrite Ht2. unfold detect at 1.
    rewrite (set_same "anomaly_score") by (unfold detect; now frame).
    rewrite (set_same "is_anomaly") by (unfold detect; now frame).
    rewrite (set_same "more_or_less") by (unfold detect; now frame).
    rewrite (set_same "error") by (unfold detect; now frame).
    reflexivity. }
  exists o'. split; [exact Hrun'|].
  rewrite Ht1', Ht2', Hsame, Havg, Havg', Hpct, Hpct', Htot, Htot', Hcap, Hcap'.
  repeat split.
  apply set_same. rewrite Ht2. now frame.
Qed.

(** ** Signs *)

Lemma nonneg_leb x : nonneg x = true <-> F64.leb F64.zero x = true.
Proof.
  unfold F64.leb, SFleb. destruct x as [s|[|]| |[|] m e]; simpl; split; auto; discriminate.
Qed.

Lemma nonneg_cases x :
  nonneg x = true ->
  (exists s, x = S754_zero s) \/ x = S754_infinity false \/
  exists m e, x = S754_finite false m e.
Proof. destruct x as [s|[|]| |[|] m e]; simpl; try discriminate; eauto. Qed.

Lemma round_aux_nonneg m e l :
  0 <= m -> nonneg (binary_round_aux F64.prec F64.emax false m e l) = true.
Proof.
  intros Hm. destruct (round_aux_sign false m e l Hm) as [H|[H|(m' & e' & H)]];
    now rewrite H.
Qed.

Lemma binary_round_nonneg m e : nonneg (binary_round F64.prec F64.emax false m e) = true.
Proof.
  unfold binary_round. destruct (shl_align m e _) as [mz ez].
  apply round_aux_nonneg. lia.
Qed.

Lemma abs_not_negative x : F64.is_nan x = false -> nonneg (F64.abs x) = true.
Proof. destruct x; simpl; auto; discriminate. Qed.

Lemma add_nonneg x y :
  nonneg x = true -> nonneg y = true -> nonneg (F64.add x y) = true.
Proof.
  intros Hx Hy.
  destruct (nonneg_cases x Hx) as [[sx ->]|[->|(mx & ex & ->)]],
           (nonneg_cases y Hy) as [[sy ->]|[->|(my & ey & ->)]];
    try reflexivity; try (destruct sx, sy; reflexivity).
  unfold F64.add, SFadd, cond_Zopp.
  change (Zpos ?a + Zpos ?b) with (Zpos (a + b)). cbn [binary_normalize].
  apply binary_round_nonneg.
Qed.

Lemma div_finite_nonneg mx ex my ey :
  nonneg (F64.div (S754_finite false mx ex) (S754_finite false my ey)) = true.
Proof.
  unfold F64.div, SFdiv, SFdiv_core_binary.
  set (m' := match _ with Zpos _ => _ | Z0 => _ | Zneg _ => _ end).
  assert (Hm' : 0 <= m').
  { subst m'. destruct (_ - _ - _) as [|p|p]; try lia.
    rewrite Z.shiftl_mul_pow2 by lia. apply Z.mul_nonneg_nonneg; [lia|].
    apply Z.pow_nonneg. lia. }
  pose proof (Z.div_pos m' (Zpos my) Hm' ltac:(lia)) as Hq.
  unfold Z.div in Hq.
  destruct (Z.div_eucl m' (Zpos my)) as [q r].
  apply round_aux_nonneg. exact Hq.
Qed.

Lemma mul_finite_nonneg mx ex my ey :
  nonneg (F64.mul (S754_finite false mx ex) (S754_finite false my ey)) = true.
Proof. unfold F64.mul, SFmul. cbn [xorb]. apply round_aux_nonneg. lia. Qed.

(** ** The error column and its sum *)

Lemma error_nonneg_or_nan b a :
  F64.is_nan (error b a) = true \/ nonneg (error b a) = true.
Proof.
  unfold error. destruct (Py.ne b a); [|now right].
  destruct (F64.is_nan (F64.sub a b)) eqn:E.
  - left. destruct (F64.sub a b); try discriminate; reflexivity.
  - right. now apply abs_not_negative.
Qed.

Lemma errors_filled_nonneg before after :
  Forall (fun e => nonneg e = true) (map fillna (errors before after)).
Proof.
  apply Forall_forall. intros e He. apply in_map_iff in He. destruct He as (x & <- & Hin).
  unfold errors in Hin. apply in_map_iff in Hin. destruct Hin as ([b a] & <- & _).
  simpl. unfold fillna. destruct (error_nonneg_or_nan b a) as [H|H].
  - now rewrite H.
  - destruct (F64.is_nan (error b a)); auto.
Qed.

Lemma sum_errors_nonneg before after : nonneg (sum (errors before after)) = true.
Proof.
  unfold sum. apply (sum_closed (fun x => nonneg x = true) add_nonneg);
    [reflexivity | apply errors_filled_nonneg].
Qed.

(** X4: on float64 measurements, NaN and the infinities among them, no
    error cell is below zero, and total_error is neither NaN nor below
    zero. *)
Theorem error_never_negative time_id df o before after :
  process_file time_id df = inr o ->
  get_col "ace_before" df = Some (FloatCol before) ->
  get_col "ace_after" df = Some (FloatCol after) ->
  (forall i e, float_at "error" i (table1 o) = Some e -> F64.ltb e F64.zero = false) /\
  F64.leb F64.zero (total_error o) = true.
Proof.
  intros Hrun Hb Ha.
  destruct (process_file_inv _ _ _ _ _ Hb Ha Hrun) as (-> & _ & _ & _ & -> & _).
  split.
  - intros i e. unfold float_at, detect. frame. intros Hi.
    apply nth_error_In in Hi. unfold errors in Hi. apply in_map_iff in Hi.
    destruct Hi as ([b a] & <- & _). simpl.
    destruct (error_nonneg_or_nan b a) as [H|H];
      destruct (error b a) as [s|[|]| |[|] m e]; simpl in *; try discriminate; auto.
  - apply nonneg_leb, sum_errors_nonneg.
Qed.

(** ** A positive baseline *)

Lemma of_nat_positive n :
  F64.of_Z (Z.of_nat (S n)) = S754_infinity false \/
  exists m e, F64.of_Z (Z.of_nat (S n)) = S754_finite false m e.
Proof.
  unfold F64.of_Z. destruct (Z.of_nat (S n)) as [|p|p] eqn:E; try lia.
  cbn [binary_normalize]. apply binary_round_nonzero. unfold SpecFloat.emin, F64.prec, F64.emax. lia.
Qed.

Lemma div_nonneg_pos x y :
  nonneg x = true ->
  y = S754_infinity false \/ (exists m e, y = S754_finite false m e) ->
  F64.is_nan (F64.div x y) = false ->
  nonneg (F64.div x y) = true.
Proof.
  intros Hx Hy Hn.
  destruct (nonneg_cases x Hx) as [[sx ->]|[->|(mx & ex & ->)]],
           Hy as [->|(my & ey & ->)];
    try reflexivity; try discriminate Hn.
  apply div_finite_nonneg.
Qed.

Lemma mean_errors_nonneg before after :
  F64.is_nan (mean (errors before after)) = false ->
  nonneg (mean (errors before after)) = true.
Proof.
  unfold mean. destruct (count (errors before after)) as [|n]; [discriminate|].
  apply div_nonneg_pos; [apply sum_errors_nonneg | apply of_nat_positive].
Qed.

Lemma pct_nonneg avg base :
  nonneg avg = true ->
  F64.ltb F64.zero base = true -> F64.is_finite base = true ->
  nonneg (F64.mul (F64.div avg base) (F64.of_Z 100)) = true.
Proof.
  intros Ha Hpos Hfin. rewrite of_Z_100.
  destruct (ltb_zero_inv base Hpos) as [->|(m & e & ->)]; [discriminate Hfin|].
  destruct (nonneg_cases avg Ha) as [[s ->]|[->|(ma & ea & ->)]]; try reflexivity.
  pose proof (div_finite_nonneg ma ea m e) as Hq.
  destruct (nonneg_cases _ Hq) as [[s ->]|[->|(mq & eq & ->)]]; try reflexivity.
  apply mul_finite_nonneg.
Qed.

(** X12: when the mean of before is positive and finite and avg_error is
    not NaN, then avg_error and avg_error_pct are at least 0 and capped_pct
    lies in [0, 5.0]. *)
Theorem positive_baseline time_id df o before :
  process_file time_id df = inr o ->
  get_col "ace_before" df = Some (FloatCol before) ->
  F64.ltb F64.zero (mean before) = true ->
  F64.is_finite (mean before) = true ->
  F64.is_nan (avg_error o) = false ->
  F64.leb F64.zero (avg_error o) = true /\
  F64.leb F64.zero (avg_error_pct o) = true /\
  F64.leb F64.zero (capped_pct o) = true /\
  F64.leb (capped_pct o) (F64.of_Z 5) = true.
Proof.
  intros Hrun Hb Hpos Hfin Hnan.
  destruct (process_file_reads _ _ _ Hrun) as (before' & after & Hb' & Ha).
  rewrite Hb in Hb'. injection Hb' as <-.
  destruct (process_file_inv _ _ _ _ _ Hb Ha Hrun) as (_ & _ & Havg & Hpct & _ & Hcap).
  rewrite Havg in Hnan. pose proof (mean_errors_nonneg _ _ Hnan) as Hav.
  pose proof (pct_nonneg _ _ Hav Hpos Hfin) as Hp. fold (pct before after) in Hp.
  rewrite Havg, Hpct, Hcap.
  apply nonneg_leb in Hav, Hp.
  destruct (min_cap_bounds (pct before after)) as [Hin _].
  destruct (Hin Hp). auto.
Qed.

(** ** The ceiling *)

(** X5: capped_pct is never above 5.0; it is 5.0 whenever avg_error_pct
    is above 5.0, and it is NaN exactly when avg_error_pct is NaN. *)
Theorem cap_never_exceeded time_id df o :
  process_file time_id df = inr o ->
  F64.ltb (F64.of_Z 5) (capped_pct o) = false /\
  (F64.ltb (F64.of_Z 5) (avg_error_pct o) = true -> capped_pct o = F64.of_Z 5) /\
  (F64.is_nan (capped_pct o) = true <-> F64.is_nan (avg_error_pct o) = true).
Proof.
  intros Hrun.
  destruct (process_file_reads _ _ _ Hrun) as (before & after & Hb & Ha).
  destruct (process_file_inv _ _ _ _ _ Hb Ha Hrun) as (_ & _ & _ & -> & _ & ->).
  unfold Py.min. fold cap. destruct (F64.ltb cap (pct before after)) eqn:E.
  - repeat split; auto; try discriminate.
    intros Hn. destruct (pct before after); try discriminate Hn. discriminate E.
  - repeat split; auto. discriminate.
Qed.

(** ** Rows with a NaN measurement *)

Lemma nan_row b a :
  F64.is_nan b = true \/ F64.is_nan a = true ->
  anomaly_score b a = 1 /\ more_or_less b a = "equal"%string /\
  F64.is_nan (error b a) = true.
Proof.
  intros [H|H]; [destruct b; try discriminate H | destruct a; try discriminate H];
    unfold anomaly_score, more_or_less, error, Py.ne, Py.gt, Py.lt, F64.eqb, F64.ltb,
      SFeqb, SFltb.
  - destruct a; repeat split.
  - destruct b; repeat split.
Qed.

(** X10: a row with a NaN measurement is flagged (anomaly_score +1,
    is_anomaly true) while its direction is "equal" and its error is NaN;
    when before is the NaN, the estimate is NaN too. *)
Theorem nan_measurement time_id df o i b a :
  process_file time_id df = inr o ->
  float_at "ace_before" i df = Some b ->
  float_at "ace_after" i df = Some a ->
  F64.is_nan b = true \/ F64.is_nan a = true ->
  int_at "anomaly_score" i (table1 o) = Some 1 /\
  bool_at "is_anomaly" i (table1 o) = Some true /\
  str_at "more_or_less" i (table1 o) = Some "equal"%string /\
  float_at "error" i (table1 o) = Some F64.nan /\
  (F64.is_nan b = true -> float_at "estimated" i (table2 o) = Some F64.nan).
Proof.
  intros Hrun Hb Ha Hnan.
  destruct (run_row df i b a Hb Ha) as (before & after & Hcb & Hca & Hbi & Hai).
  pose proof (process_file_inv _ _ _ _ _ Hcb Hca Hrun) as (Ht1 & _).
  destruct (detect_cells before after df i b a Hbi Hai) as (Hs & Hf & Hd & He).
  destruct (nan_row b a Hnan) as (Es & Ed & Ee).
  rewrite <- Ht1 in Hs, Hf, Hd, He. rewrite Es in Hs, Hf. rewrite Ed in Hd.
  assert (Ee' : error b a = F64.nan) by (destruct (error b a); try discriminate; reflexivity).
  rewrite Ee' in He. repeat (split; [assumption|]).
  intros Hbn. rewrite (run_estimated_cell _ _ _ Hrun _ _ _ Hb Hs).
  destruct b; try discriminate Hbn.
  now destruct (capped_class (avg_error_pct o)).
Qed.

(** ** A sheet without a change *)

Lemma unchanged_columns before after :
  Forall2 (fun b a => Py.ne b a = false) before after ->
  scores before after = map (fun _ => -1) before /\
  directions before after = map (fun _ => "equal"%string) before /\
  errors before after = map (fun _ => F64.zero) before /\
  combine before (scores before after) = map (fun b => (b, -1)) before.
Proof.
  unfold scores, directions, errors, rows.
  induction 1 as [|b a before after Hne H IH]; simpl; [repeat split|].
  destruct IH as (I1 & I2 & I3 & I4).
  rewrite I1, I2, I3 in *. rewrite I4.
  unfold anomaly_score, error, more_or_less. rewrite Hne.
  assert (Hc : SFcompare b a = Some Eq) by now apply ne_compare.
  unfold Py.gt, Py.lt, F64.ltb, SFltb. rewrite (SFcompare_antisym b a), Hc. simpl.
  repeat split.
Qed.

Lemma sum_zeros {A} (xs : list A) : sum (map (fun _ => F64.zero) xs) = F64.zero.
Proof.
  unfold sum. apply (sum_closed (fun x => x = F64.zero)).
  - now intros x y -> ->.
  - reflexivity.
  - rewrite map_map. apply Forall_forall. intros x Hx.
    apply in_map_iff in Hx. now destruct Hx as (_ & <- & _).
Qed.

(** X6: on a sheet where after equals before on every row, nothing is
    flagged, every error is 0.0, total_error is 0.0 and the estimated
    column is the before column itself. *)
Theorem unchanged_sheet time_id df o before after :
  process_file time_id df = inr o ->
  get_col "ace_before" df = Some (FloatCol before) ->
  get_col "ace_after" df = Some (FloatCol after) ->
  Forall2 (fun b a => Py.ne b a = false) before after ->
  get_col "anomaly_score" (table1 o) = Some (IntCol (map (fun _ => -1) before)) /\
  get_col "is_anomaly" (table1 o) = Some (BoolCol (map (fun _ => false) before)) /\
  get_col "more_or_less" (table1 o) = Some (ObjCol (map (fun _ => "equal"%string) before)) /\
  get_col "error" (table1 o) = Some (FloatCol (map (fun _ => F64.zero) before)) /\
  get_col "estimated" (table2 o) = Some (FloatCol before) /\
  total_error o = F64.zero.
Proof.
  intros Hrun Hb Ha Hsame.
  destruct (process_file_inv _ _ _ _ _ Hb Ha Hrun) as (-> & -> & _ & _ & -> & _).
  destruct (unchanged_columns _ _ Hsame) as (Hs & Hd & He & Hc).
  unfold detect. frame. unfold estimates. rewrite Hc, Hs, Hd, He, sum_zeros.
  rewrite !map_map. simpl. rewrite map_id. repeat split.
Qed.

(** ** Exchanging the two measurement columns *)

Lemma ne_sym b a : Py.ne a b = Py.ne b a.
Proof.
  unfold Py.ne, F64.eqb, SFeqb. rewrite (SFcompare_antisym b a).
  destruct (SFcompare b a) as [[ | | ]|]; reflexivity.
Qed.

Lemma binary_round_abs s s' m e :
  SFabs (binary_round F64.prec F64.emax s m e) = SFabs (binary_round F64.prec F64.emax s' m e).
Proof.
  unfold binary_round. destruct (shl_align m e _) as [mz ez].
  unfold binary_round_aux.
  destruct (shr_fexp F64.prec F64.emax (Zpos mz) ez loc_Exact) as [mrs e1].
  destruct (shr_fexp F64.prec F64.emax _ e1 loc_Exact) as [mrs' e2].
  destruct (shr_m mrs'); try reflexivity.
  destruct (e2 <=? F64.emax - F64.prec); reflexivity.
Qed.

Lemma abs_sub_sym a b : F64.abs (F64.sub a b) = F64.abs (F64.sub b a).
Proof.
  destruct a as [sa|sa| |sa ma ea], b as [sb|sb| |sb mb eb]; try reflexivity;
    try (destruct sa, sb; reflexivity); try (destruct sa; reflexivity);
    try (destruct sb; reflexivity).
  unfold F64.sub, F64.abs, SFsub. rewrite (Z.min_comm eb ea).
  set (X := Zpos (fst (shl_align ma ea (Z.min ea eb)))).
  set (Y := Zpos (fst (shl_align mb eb (Z.min ea eb)))).
  replace (cond_Zopp sb Y - cond_Zopp sa X) with (- (cond_Zopp sa X - cond_Zopp sb Y)) by lia.
  destruct (cond_Zopp sa X - cond_Zopp sb Y) as [|d|d]; cbn [Z.opp binary_normalize];
    [reflexivity | apply binary_round_abs | apply binary_round_abs].
Qed.

Lemma error_sym b a : error a b = error b a.
Proof. unfold error. now rewrite (ne_sym b a), abs_sub_sym. Qed.

Lemma score_sym b a : anomaly_score a b = anomaly_score b a.
Proof. unfold anomaly_score. now rewrite (ne_sym b a). Qed.

Lemma direction_flip b a : more_or_less a b = flip (more_or_less b a).
Proof.
  unfold more_or_less, Py.gt, Py.lt.
  destruct (F64.ltb b a) eqn:E1.
  - now rewrite (ltb_asym _ _ E1).
  - destruct (F64.ltb a b); reflexivity.
Qed.

Lemma map_rows_swap {C} (f : F64.float -> F64.float -> C) xs ys :
  map (fun r => f (fst r) (snd r)) (rows ys xs)
  = map (fun r => f (snd r) (fst r)) (rows xs ys).
Proof.
  unfold rows. revert ys. induction xs as [|x xs IH]; intros [|y ys]; simpl; auto.
  now rewrite IH.
Qed.

Lemma swapped_columns before after :
  scores after before = scores before after /\
  errors after before = errors before after /\
  directions after before = map flip (directions before after).
Proof.
  unfold scores, errors, directions. repeat split.
  - rewrite (map_rows_swap anomaly_score before after).
    apply map_ext. intros [b a]. apply score_sym.
  - rewrite (map_rows_swap error before after).
    apply map_ext. intros [b a]. apply error_sym.
  - rewrite (map_rows_swap more_or_less before after), map_map.
    apply map_ext. intros [b a]. apply direction_flip.
Qed.

(** X7: exchanging the two measurement columns keeps anomaly_score,
    is_anomaly, error, avg_error and total_error, and exchanges "more" and
    "less" in the direction column. *)
Theorem swapped_measurements time_id df o time_id' df' o' :
  process_file time_id df = inr o ->
  process_file time_id' df' = inr o' ->
  get_col "ace_before" df' = get_col "ace_after" df ->
  get_col "ace_after" df' = get_col "ace_before" df ->
  get_col "anomaly_score" (table1 o') = get_col "anomaly_score" (table1 o) /\
  get_col "is_anomaly" (table1 o') = get_col "is_anomaly" (table1 o) /\
  get_col "error" (table1 o') = get_col "error" (table1 o) /\
  (forall dirs, get_col "more_or_less" (table1 o) = Some (ObjCol dirs) ->
     get_col "more_or_less" (table1 o') = Some (ObjCol (map flip dirs))) /\
  avg_error o' = avg_error o /\
  total_error o' = total_error o.
Proof.
  intros Hrun Hrun' Hb' Ha'.
  destruct (process_file_reads _ _ _ Hrun) as (before & after & Hb & Ha).
  rewrite Ha in Hb'. rewrite Hb in Ha'.
  destruct (process_file_inv _ _ _ _ _ Hb Ha Hrun) as (-> & _ & -> & _ & -> & _).
  destruct (process_file_inv _ _ _ _ _ Hb' Ha' Hrun') as (-> & _ & -> & _ & -> & _).
  destruct (swapped_columns before after) as (Hs & He & Hd).
  unfold detect. frame. rewrite Hs, He, Hd. repeat split.
  now intros dirs [= <-].
Qed.

(** ** Rows left out of the summary *)

Lemma binary_normalize_not_nan m e :
  F64.is_nan (binary_normalize F64.prec F64.emax m e false) = false.
Proof.
  destruct m as [|p|p]; cbn [binary_normalize]; [reflexivity| |];
    unfold binary_round; destruct (shl_align p e _) as [mz ez];
    match goal with
    | |- context [binary_round_aux _ _ ?s ?mm ?ee ?l] =>
        destruct (round_aux_sign s mm ee l ltac:(lia)) as [H|[H|(m' & e' & H)]];
        now rewrite H
    end.
Qed.

Lemma error_nan_iff b a :
  F64.is_nan (error b a) = true <-> F64.is_nan b = true \/ F64.is_nan a = true.
Proof.
  split; [|intros H; now destruct (nan_row b a H) as (_ & _ & ?)].
  unfold error, Py.ne, F64.eqb, SFeqb.
  destruct b as [sb|sb| |sb mb eb], a as [sa|sa| |sa ma ea]; simpl; auto;
    try discriminate; try (destruct sa, sb; simpl; discriminate);
    try (destruct sa; simpl; discriminate); try (destruct sb; simpl; discriminate).
  intros H. exfalso.
  destruct (negb _); [|discriminate].
  unfold F64.abs, F64.sub, SFsub in H.
  pose proof (binary_normalize_not_nan
                (cond_Zopp sa (Zpos (fst (shl_align ma ea (Z.min ea eb))))
                 - cond_Zopp sb (Zpos (fst (shl_align mb eb (Z.min ea eb)))))
                (Z.min ea eb)) as Hn.
  destruct (binary_normalize _ _ _ _ _); simpl in *; discriminate.
Qed.

Lemma measured_error b a : notna (error b a) = measured (b, a).
Proof.
  unfold measured, notna. simpl.
  destruct (F64.is_nan (error b a)) eqn:E.
  - apply error_nan_iff in E. destruct E as [-> | ->]; simpl; auto.
    now rewrite andb_false_r.
  - destruct (F64.is_nan b) eqn:Eb, (F64.is_nan a) eqn:Ea; auto;
      assert (F64.is_nan (error b a) = true) by (apply error_nan_iff; auto); congruence.
Qed.

Lemma errors_filled before after :
  map fillna (errors before after)
  = map (fun r => if measured r then error (fst r) (snd r) else F64.zero)
      (rows before after).
Proof.
  unfold errors. rewrite map_map. apply map_ext. intros [b a]. simpl.
  rewrite <- measured_error. unfold fillna, notna.
  now destruct (F64.is_nan (error b a)).
Qed.

Lemma errors_count before after :
  count (errors before after) = List.length (filter measured (rows before after)).
Proof.
  unfold count, errors. induction (rows before after) as [|[b a] rs IH]; simpl; auto.
  rewrite measured_error. destruct (measured (b, a)); simpl; now rewrite IH.
Qed.

(** X9: a row with a NaN measurement counts for nothing in the summary:
    total_error is numpy's sum of the error column with 0.0 on those rows,
    and avg_error is total_error over the number of the other rows (NaN
    when there is none). *)
Theorem summary_skips_nan_rows time_id df o before after :
  process_file time_id df = inr o ->
  get_col "ace_before" df = Some (FloatCol before) ->
  get_col "ace_after" df = Some (FloatCol after) ->
  total_error o
    = Np.sum (map (fun r => if measured r then error (fst r) (snd r) else F64.zero)
                (rows before after)) /\
  avg_error o
    = match List.length (filter measured (rows before after)) with
      | O => F64.nan
      | n => F64.div (total_error o) (F64.of_Z (Z.of_nat n))
      end.
Proof.
  intros Hrun Hb Ha.
  destruct (process_file_inv _ _ _ _ _ Hb Ha Hrun) as (_ & _ & -> & _ & -> & _).
  unfold mean. rewrite errors_count. unfold sum. rewrite errors_filled.
  split; reflexivity.
Qed.

(** ** A negative measurement *)

Lemma canonical_leb_neg m1 e1 m2 e2 :
  canonical m1 e1 -> canonical m2 e2 ->
  vle (Zpos m1) e1 (Zpos m2) e2 ->
  F64.leb (S754_finite true m2 e2) (S754_finite true m1 e1) = true.
Proof.
  intros C1 C2 Hv. unfold F64.leb, SFleb, SFcompare.
  destruct (e2 ?= e1) eqn:Ec; auto.
  - apply Z.compare_eq in Ec. subst e2. unfold vle in Hv.
    rewrite Z.min_id, Z.sub_diag, Z.pow_0_r, !Z.mul_1_r in Hv.
    destruct (Pos.compare_cont Eq m2 m1) eqn:Em; auto.
    exfalso. change ((m2 ?= m1)%positive = Lt) in Em.
    rewrite Pos.compare_lt_iff in Em. lia.
  - rewrite Z.compare_lt_iff in Ec.
    pose proof (fe_mono _ _ (magnitude_mono _ _ _ _ Hv)) as H.
    unfold canonical in *. lia.
Qed.

Lemma product_value mb eb mf ef :
  canonical mb eb -> canonical mf ef ->
  vle (Zpos one_m) (-52) (Zpos mf) ef ->
  eb + ef <= fe (Zpos (digits2_pos (mb * mf)) + (eb + ef)) /\
  vle (Zpos mb) eb (Zpos (mb * mf)) (eb + ef).
Proof.
  intros Cb Cf Hf. split.
  - pose proof (digits_mul_ge mb mf). unfold canonical in *. rewrite fe_eq in *. lia.
  - remember (Z.max (Z.max (52 - eb) (- ef - eb)) (- eb)) as K eqn:HK.
    assert (52 <= eb + K /\ - (eb + K) <= ef /\ - K <= eb) as (K1 & K2 & K3) by lia.
    clear HK.
    apply (vle_offset (eb + K)) in Hf; try lia.
    apply (vle_offset K); try lia.
    replace (-52 + (eb + K)) with ((eb + K - 52) + 0) in Hf by lia.
    assert (H52 : Zpos one_m = 2 ^ 52) by reflexivity.
    rewrite H52, <- pow2_split in Hf by lia.
    replace (52 + (eb + K - 52 + 0)) with (eb + K) in Hf by lia.
    replace (eb + ef + K) with (ef + (eb + K)) by lia.
    rewrite Pos2Z.inj_mul, <- Z.mul_assoc.
    apply Z.mul_le_mono_nonneg_l; lia.
Qed.

Lemma mul_le_self_neg mb eb mf ef :
  canonical mb eb -> canonical mf ef ->
  vle (Zpos one_m) (-52) (Zpos mf) ef ->
  F64.leb (F64.mul (S754_finite true mb eb) (S754_finite false mf ef))
    (S754_finite true mb eb) = true.
Proof.
  intros Cb Cf Hf. destruct (product_value mb eb mf ef Cb Cf Hf) as [HE Hv].
  unfold F64.mul, SFmul. cbn [xorb].
  destruct (round_aux_lower true (mb * mf) (eb + ef) mb eb HE Cb Hv)
    as [->|(m' & e' & -> & C' & V')].
  - reflexivity.
  - now apply canonical_leb_neg.
Qed.

Lemma ltb_neg_inv x :
  F64.ltb x F64.zero = true ->
  x = S754_infinity true \/ exists m e, x = S754_finite true m e.
Proof.
  unfold F64.ltb, SFltb. destruct x as [s|[|]| |[|] m e]; simpl; try discriminate; eauto.
Qed.

Lemma product_not_above b c :
  float64 b -> F64.ltb b F64.zero = true -> F64.ltb F64.zero c = true ->
  F64.leb (F64.mul b (F64.add (F64.of_Z 1) (F64.div c (F64.of_Z 100)))) b = true.
Proof.
  intros [Vb Fb] Hb Hc.
  destruct (ltb_neg_inv b Hb) as [->|(mb & eb & ->)]; [discriminate Fb|].
  destruct (add_one_ge _ (div_hundred_sign c Hc)) as [->|(mf & ef & -> & Cf & Vf)].
  - reflexivity.
  - apply mul_le_self_neg; auto. now apply valid_canonical in Vb.
Qed.

(** X13: on an anomalous row with before < 0 and capped_pct > 0, the
    float before * (1 + capped_pct/100) is at most before: a negative
    measurement is moved further from zero, not upward. *)
Theorem negative_measurement_scaled_down time_id df o i b :
  process_file time_id df = inr o ->
  float_at "ace_before" i df = Some b ->
  int_at "anomaly_score" i (table1 o) = Some 1 ->
  float64 b ->
  F64.ltb b F64.zero = true ->
  F64.ltb F64.zero (capped_pct o) = true ->
  F64.leb (product (capped_pct o) b) b = true /\
  float_at "estimated" i (table2 o)
    = Some (if F64.ltb cap (avg_error_pct o)
            then Py.float_round (product (capped_pct o) b) 4
            else Np.round (product (capped_pct o) b) 4).
Proof.
  intros Hrun Hb Hs Fb Hneg Hc. split.
  - now apply product_not_above.
  - apply (run_rounded_cell _ _ _ Hrun _ _ _ Hb Hs). discriminate.
Qed.

(** ** The sign of an estimate *)

Lemma nonpos_leb x : nonpos x = true <-> F64.leb x F64.zero = true.
Proof.
  unfold F64.leb, SFleb. destruct x as [s|[|]| |[|] m e]; simpl; split; auto; discriminate.
Qed.

Lemma round_keeps_sign s m e :
  Py.float_round (S754_finite s m e) 4 = S754_zero s \/
  Py.float_round (S754_finite s m e) 4 = S754_infinity s \/
  exists m' e', Py.float_round (S754_finite s m e) 4 = S754_finite s m' e'.
Proof.
  unfold Py.float_round, Py.nearest_decimal.
  destruct (Py.scaled m e 4) as [|n|n]; auto.
  unfold SFdiv, SFdiv_core_binary.
  set (m' := match _ with Zpos _ => _ | Z0 => _ | Zneg _ => _ end).
  assert (Hm' : 0 <= m').
  { subst m'. destruct (_ - _ - _) as [|p|p]; try lia.
    rewrite Z.shiftl_mul_pow2 by lia. apply Z.mul_nonneg_nonneg; [lia|].
    apply Z.pow_nonneg. lia. }
  set (d := Z.to_pos (10 ^ Z.of_nat 4)) in *.
  pose proof (Z.div_pos m' (Zpos d) Hm' ltac:(lia)) as Hq.
  unfold Z.div in Hq.
  destruct (Z.div_eucl m' (Zpos d)) as [q r].
  rewrite xorb_false_r. apply round_aux_sign. exact Hq.
Qed.

Lemma round_nonneg x : nonneg x = true -> nonneg (Py.float_round x 4) = true.
Proof.
  intros H. destruct (nonneg_cases x H) as [[s ->]|[->|(m & e & ->)]]; try reflexivity.
  destruct (round_keeps_sign false m e) as [E|[E|(m' & e' & E)]]; now rewrite E.
Qed.

Lemma round_nonpos x : nonpos x = true -> nonpos (Py.float_round x 4) = true.
Proof.
  intros H. destruct x as [s|[|]| |[|] m e]; try discriminate H; try reflexivity.
  destruct (round_keeps_sign true m e) as [E|[E|(m' & e' & E)]]; now rewrite E.
Qed.

(** numpy's [round] keeps the sign through its three steps. *)
Lemma binary_round_sign s m e : has_sign s (binary_round F64.prec F64.emax s m e).
Proof.
  unfold binary_round. destruct (shl_align m e _) as [mz ez].
  apply round_aux_sign. lia.
Qed.

Lemma round_half_even_nonneg num den :
  0 <= num -> 0 < den -> 0 <= round_half_even num den.
Proof.
  intros Hn Hd. unfold round_half_even.
  pose proof (Z.div_pos num den Hn Hd).
  destruct (2 * (num mod den) ?= den); [destruct (Z.even (num / den))| |]; lia.
Qed.

Lemma of_signed_sign s n : 0 <= n -> has_sign s (F64.of_signed s n).
Proof.
  intros Hn. destruct n as [|p|p]; try lia.
  - left. now destruct s.
  - replace (F64.of_signed s (Zpos p)) with (binary_round F64.prec F64.emax s p 0)
      by (destruct s; reflexivity).
    apply binary_round_sign.
Qed.

Lemma rint_sign s x : has_sign s x -> has_sign s (Np.rint x).
Proof.
  intros [->|[->|(m & e & ->)]]; [left; reflexivity | right; left; reflexivity |].
  unfold Np.rint. destruct (0 <=? e) eqn:E; [right; right; eauto|].
  apply Z.leb_gt in E.
  apply of_signed_sign. apply round_half_even_nonneg; [lia | apply Z.pow_pos_nonneg; lia].
Qed.

Lemma mul_sign s x mf ef :
  has_sign s x -> has_sign s (F64.mul x (S754_finite false mf ef)).
Proof.
  intros [->|[->|(m & e & ->)]]; unfold F64.mul, SFmul; rewrite xorb_false_r.
  - now left.
  - right. now left.
  - apply round_aux_sign. lia.
Qed.

Lemma div_sign s x mf ef :
  has_sign s x -> has_sign s (F64.div x (S754_finite false mf ef)).
Proof.
  intros [->|[->|(m & e & ->)]]; unfold F64.div, SFdiv; rewrite ?xorb_false_r.
  - now left.
  - right. now left.
  - unfold SFdiv_core_binary.
    set (m' := match _ with Zpos _ => _ | Z0 => _ | Zneg _ => _ end).
    assert (Hm' : 0 <= m').
    { subst m'. destruct (_ - _ - _) as [|p|p]; try lia.
      rewrite Z.shiftl_mul_pow2 by lia. apply Z.mul_nonneg_nonneg; [lia|].
      apply Z.pow_nonneg. lia. }
    pose proof (Z.div_pos m' (Zpos mf) Hm' ltac:(lia)) as Hq.
    unfold Z.div in Hq.
    destruct (Z.div_eucl m' (Zpos mf)) as [q r].
    apply round_aux_sign. exact Hq.
Qed.

Lemma np_round_sign s x : has_sign s x -> has_sign s (Np.round x 4).
Proof.
  intros H. unfold Np.round. change (10 ^ Z.of_nat 4) with 10000. rewrite of_Z_10000.
  now apply div_sign, rint_sign, mul_sign.
Qed.

Lemma np_round_nonneg x : nonneg x = true -> nonneg (Np.round x 4) = true.
Proof.
  intros H. destruct (nonneg_cases x H) as [[s ->]|[->|(m & e & ->)]];
    try (destruct s; reflexivity); try reflexivity.
  destruct (np_round_sign false (S754_finite false m e)) as [E|[E|(m' & e' & E)]];
    [right; right; eauto| | |]; now rewrite E.
Qed.

Lemma np_round_nonpos x : nonpos x = true -> nonpos (Np.round x 4) = true.
Proof.
  intros H. destruct x as [s|[|]| |[|] m e]; try discriminate H;
    try (destruct s; reflexivity); try reflexivity.
  destruct (np_round_sign true (S754_finite true m e)) as [E|[E|(m' & e' & E)]];
    [right; right; eauto| | |]; now rewrite E.
Qed.

Lemma factor_positive c :
  F64.ltb F64.zero c = true ->
  F64.add (F64.of_Z 1) (F64.div c (F64.of_Z 100)) = S754_infinity false \/
  exists mf ef, F64.add (F64.of_Z 1) (F64.div c (F64.of_Z 100)) = S754_finite false mf ef.
Proof.
  intros Hc. destruct (add_one_ge _ (div_hundred_sign c Hc)) as [->|(mf & ef & -> & _)]; eauto.
Qed.

Lemma mul_sign_pos b f :
  f = S754_infinity false \/ (exists mf ef, f = S754_finite false mf ef) ->
  (F64.ltb F64.zero b = true -> nonneg (F64.mul b f) = true) /\
  (F64.ltb b F64.zero = true -> nonpos (F64.mul b f) = true).
Proof.
  intros Hf. split; intros Hb.
  - destruct (ltb_zero_inv b Hb) as [->|(m & e & ->)], Hf as [->|(mf & ef & ->)];
      try reflexivity. apply mul_finite_nonneg.
  - destruct (ltb_neg_inv b Hb) as [->|(m & e & ->)], Hf as [->|(mf & ef & ->)];
      try reflexivity.
    unfold F64.mul, SFmul. cbn [xorb].
    destruct (round_aux_sign true (Zpos (m * mf)) (e + ef) loc_Exact ltac:(lia))
      as [H|[H|(m' & e' & H)]]; now rewrite H.
Qed.

Lemma nth_error_combine_fst {A B} (xs : list A) (ys : list B) i x y :
  nth_error (combine xs ys) i = Some (x, y) -> nth_error xs i = Some x.
Proof.
  revert ys i. induction xs as [|x0 xs IH]; intros [|y0 ys] [|i]; simpl; try discriminate.
  - now intros [= -> _].
  - apply IH.
Qed.

Lemma estimated_sign cls c b s :
  F64.ltb F64.zero c = true ->
  (F64.ltb F64.zero b = true -> nonneg (estimated cls c b s) = true) /\
  (F64.ltb b F64.zero = true -> nonpos (estimated cls c b s) = true).
Proof.
  intros Hc. unfold estimated, product. destruct (s =? -1).
  - split; intros Hb.
    + destruct (ltb_zero_inv b Hb) as [->|(m & e & ->)]; reflexivity.
    + destruct (ltb_neg_inv b Hb) as [->|(m & e & ->)]; reflexivity.
  - destruct (mul_sign_pos b _ (factor_positive c Hc)) as [Hp Hn].
    split; intros Hb; destruct cls; cbn [Py.round];
      [apply round_nonneg | apply np_round_nonneg
       | apply round_nonpos | apply np_round_nonpos]; auto.
Qed.

(** X14: with capped_pct > 0 an estimate never crosses zero: it is at
    least 0 on a row with before > 0 and at most 0 on a row with
    before < 0, anomalous or not. *)
Theorem estimate_keeps_sign time_id df o i b est :
  process_file time_id df = inr o ->
  float_at "ace_before" i df = Some b ->
  float_at "estimated" i (table2 o) = Some est ->
  F64.ltb F64.zero (capped_pct o) = true ->
  (F64.ltb F64.zero b = true -> F64.leb F64.zero est = true) /\
  (F64.ltb b F64.zero = true -> F64.leb est F64.zero = true).
Proof.
  intros Hrun Hb He Hc.
  destruct (process_file_reads _ _ _ Hrun) as (before & after & Hcb & Hca).
  destruct (process_file_inv _ _ _ _ _ Hcb Hca Hrun) as (_ & Ht2 & _ & _ & _ & Hcap).
  unfold float_at in Hb, He. rewrite Hcb in Hb. rewrite Ht2, get_set_eq in He.
  unfold estimates in He. rewrite nth_error_map in He.
  destruct (nth_error (combine before (scores before after)) i) as [[b' s]|] eqn:E;
    [|discriminate].
  injection He as <-. apply nth_error_combine_fst in E. rewrite Hb in E.
  injection E as <-. rewrite <- Hcap.
  destruct (estimated_sign (capped_class (pct before after)) (capped_pct o) b s Hc)
    as [Hp Hn].
  split; intros H; [apply nonneg_leb | apply nonpos_leb]; auto.
Qed.

(** ** A zero mean next to a real error *)

(** X15: when the mean of before is a zero while avg_error is above
    zero, avg_error_pct is the infinity under the sign of that zero.  On
    0.0 it is +inf and capped_pct is the ceiling 5.0, so the rows flagged
    are corrected by the full 5 percent; on -0.0 it is -inf, and so is
    capped_pct. *)
Theorem zero_mean_next_to_error time_id df o before :
  process_file time_id df = inr o ->
  get_col "ace_before" df = Some (FloatCol before) ->
  F64.eqb (mean before) F64.zero = true ->
  F64.ltb F64.zero (avg_error o) = true ->
  exists s,
    mean before = S754_zero s /\
    avg_error_pct o = S754_infinity s /\
    capped_pct o = if s then S754_infinity true else F64.of_Z 5.
Proof.
  intros Hrun Hb Hz Hpos.
  destruct (process_file_reads _ _ _ Hrun) as (before' & after & Hb' & Ha).
  rewrite Hb in Hb'. injection Hb' as <-.
  destruct (process_file_inv _ _ _ _ _ Hb Ha Hrun) as (_ & _ & Havg & Hpct & _ & Hcap).
  destruct (eqb_zero _ Hz) as [s Hs]. exists s. split; [exact Hs|].
  rewrite Hcap, Hpct. unfold pct. rewrite <- Havg, Hs.
  destruct (ltb_zero_inv _ Hpos) as [->|(m & e & ->)]; destruct s; split; reflexivity.
Qed.

(** ** The further properties on the sample workbooks *)

Lemma output_columns_witness :
  exists o, process_file "20240101_000000" collision_frame = inr o /\
    names (table1 o)
      = ["timestamp"; "ace_before"; "ace_after"; "error";
         "anomaly_score"; "is_anomaly"; "more_or_less"]%string /\
    names (table2 o)
      = ["timestamp"; "ace_before"; "ace_after"; "error";
         "anomaly_score"; "is_anomaly"; "more_or_less"; "estimated"]%string.
Proof.
  eexists. split; [reflexivity|].
  destruct (output_columns "20240101_000000" collision_frame _ eq_refl) as (H1 & H2 & _).
  split; [exact H1 | exact H2].
Defined.

Lemma row_count_kept_witness :
  exists o, process_file "20240101_000000" scenario_frame = inr o /\
    has_height 3 (table1 o) = true /\ has_height 3 (table2 o) = true.
Proof.
  eexists. split; [reflexivity|].
  apply (row_count_kept "20240101_000000" scenario_frame _ 3 eq_refl eq_refl).
Defined.

Lemma error_never_negative_witness :
  exists o, process_file "20240101_000000" nan_frame = inr o /\
    F64.leb F64.zero (total_error o) = true.
Proof.
  eexists. split; [reflexivity|].
  apply (error_never_negative "20240101_000000" nan_frame _
           [F64.of_Z 10; F64.nan] [F64.of_Z 12; F64.of_Z 4] eq_refl eq_refl eq_refl).
Defined.

Lemma cap_never_exceeded_witness :
  exists o, process_file "20240101_000000" scenario_frame = inr o /\
    F64.ltb (F64.of_Z 5) (capped_pct o) = false.
Proof.
  eexists. split; [reflexivity|].
  apply (cap_never_exceeded "20240101_000000" scenario_frame _ eq_refl).
Defined.

Lemma unchanged_sheet_witness :
  exists o, process_file "20240101_000000" unchanged_frame = inr o /\
    get_col "estimated" (table2 o) = Some (FloatCol [F64.of_Z 10; F64.dyadic 21 2]) /\
    total_error o = F64.zero.
Proof.
  eexists. split; [reflexivity|].
  destruct (unchanged_sheet "20240101_000000" unchanged_frame _
              [F64.of_Z 10; F64.dyadic 21 2] [F64.of_Z 10; F64.dyadic 21 2]
              eq_refl eq_refl eq_refl)
    as (_ & _ & _ & _ & He & Ht).
  - repeat constructor.
  - split; [exact He | exact Ht].
Defined.

Lemma swapped_measurements_witness :
  exists o o',
    process_file "20240101_000000" scenario_frame = inr o /\
    process_file "20240101_000000" exchanged_frame = inr o' /\
    get_col "error" (table1 o') = get_col "error" (table1 o) /\
    get_col "more_or_less" (table1 o')
      = Some (ObjCol (map flip ["equal"; "more"; "less"]%string)).
Proof.
  eexists. eexists. split; [reflexivity|]. split; [reflexivity|].
  destruct (swapped_measurements "20240101_000000" scenario_frame _
              "20240101_000000" exchanged_frame _ eq_refl eq_refl eq_refl eq_refl)
    as (_ & _ & He & Hd & _).
  split; [exact He|]. apply Hd. reflexivity.
Defined.

Lemma snapshot_names_witness :
  exists o o',
    process_file "20240101_000000" scenario_frame = inr o /\
    process_file "20240101_000001" scenario_frame = inr o' /\
    file1 o <> file2 o' /\
    (file1 o = file1 o' <-> "20240101_000000"%string = "20240101_000001"%string).
Proof.
  eexists. eexists. split; [reflexivity|]. split; [reflexivity|].
  destruct (snapshot_names "20240101_000000" scenario_frame _
              "20240101_000001" scenario_frame _ eq_refl eq_refl)
    as (H1 & _ & H3).
  split; [exact H3 | exact H1].
Defined.

Lemma summary_skips_nan_rows_witness :
  exists o, process_file "20240101_000000" nan_frame = inr o /\
    avg_error o = F64.div (total_error o) (F64.of_Z 1) /\
    total_error o = Np.sum [F64.of_Z 2; F64.zero] /\
    total_error o = F64.of_Z 2.
Proof.
  eexists. split; [reflexivity|].
  destruct (summary_skips_nan_rows "20240101_000000" nan_frame _
              [F64.of_Z 10; F64.nan] [F64.of_Z 12; F64.of_Z 4] eq_refl eq_refl eq_refl)
    as (Ht & Ha).
  split; [exact Ha|]. split; [exact Ht|]. reflexivity.
Defined.

Lemma nan_measurement_witness :
  exists o, process_file "20240101_000000" nan_frame = inr o /\
    int_at "anomaly_score" 1 (table1 o) = Some 1 /\
    str_at "more_or_less" 1 (table1 o) = Some "equal"%string /\
    float_at "error" 1 (table1 o) = Some F64.nan.
Proof.
  eexists. split; [reflexivity|].
  destruct (nan_measurement "20240101_000000" nan_frame _ 1 F64.nan (F64.of_Z 4)
              eq_refl eq_refl eq_refl (or_introl eq_refl))
    as (Hs & _ & Hd & He & _).
  repeat split; assumption.
Defined.

Lemma rerun_on_table2_witness :
  exists o, process_file "20240101_000000" scenario_frame = inr o /\
  exists o',
    process_file "20240102_000000" (table2 o) = inr o' /\
    table1 o' = table2 o /\ table2 o' = table2 o.
Proof.
  eexists. split; [reflexivity|].
  destruct (rerun_on_table2 "20240101_000000" scenario_frame _ "20240102_000000" eq_refl)
    as (o' & Hrun & H1 & H2 & _).
  exists o'. repeat split; assumption.
Defined.

Lemma positive_baseline_witness :
  exists o, process_file "20240101_000000" scenario_frame = inr o /\
    F64.leb F64.zero (avg_error_pct o) = true /\
    F64.leb F64.zero (capped_pct o) = true /\
    F64.leb (capped_pct o) (F64.of_Z 5) = true.
Proof.
  eexists. split; [reflexivity|].
  destruct (positive_baseline "20240101_000000" scenario_frame _
              [F64.of_Z 10; F64.of_Z 10; F64.of_Z 5]
              eq_refl eq_refl eq_refl eq_refl eq_refl)
    as (_ & H1 & H2 & H3).
  repeat split; assumption.
Defined.

Lemma negative_measurement_scaled_down_witness :
  exists o, process_file "20240101_000000" negative_frame = inr o /\
    F64.leb (product (capped_pct o) (F64.of_Z (-5))) (F64.of_Z (-5)) = true.
Proof.
  eexists. split; [reflexivity|].
  apply (negative_measurement_scaled_down "20240101_000000" negative_frame _ 1
           (F64.of_Z (-5)) eq_refl eq_refl eq_refl (conj eq_refl eq_refl) eq_refl eq_refl).
Defined.

Lemma estimate_keeps_sign_witness :
  exists o est, process_file "20240101_000000" negative_frame = inr o /\
    float_at "estimated" 1 (table2 o) = Some est /\
    F64.leb est F64.zero = true.
Proof.
  eexists. eexists. split; [reflexivity|]. split; [reflexivity|].
  apply (estimate_keeps_sign "20240101_000000" negative_frame _ 1 (F64.of_Z (-5)) _
           eq_refl eq_refl eq_refl eq_refl).
  reflexivity.
Defined.

(** On [cancelling_frame] the mean of before is 0.0; on
    [negative_zero_frame] it is -0.0. *)
Lemma zero_mean_next_to_error_witness :
  (exists o, process_file "20240101_000000" cancelling_frame = inr o /\
     exists s, mean [F64.of_Z 1; F64.of_Z (-1)] = S754_zero s /\
       avg_error_pct o = S754_infinity s /\
       capped_pct o = if s then S754_infinity true else F64.of_Z 5) /\
  (exists o, process_file "20240101_000000" negative_zero_frame = inr o /\
     mean [S754_finite true 1 (-1074); F64.zero; F64.zero] = S754_zero true /\
     exists s, mean [S754_finite true 1 (-1074); F64.zero; F64.zero] = S754_zero s /\
       avg_error_pct o = S754_infinity s /\
       capped_pct o = if s then S754_infinity true else F64.of_Z 5).
Proof.
  split.
  - eexists. split; [reflexivity|].
    apply (zero_mean_next_to_error "20240101_000000" cancelling_frame _
             [F64.of_Z 1; F64.of_Z (-1)] eq_refl eq_refl eq_refl eq_refl).
  - eexists. split; [reflexivity|]. split; [reflexivity|].
    apply (zero_mean_next_to_error "20240101_000000" negative_zero_frame _
             [S754_finite true 1 (-1074); F64.zero; F64.zero]
             eq_refl eq_refl eq_refl eq_refl).
Defined.

(** On [bare_frame], which has neither column, the first lookup fails;
    on [lone_frame], whose before column holds integers, the second. *)
Lemma key_error_witness :
  process_file "20240101_000000" bare_frame = inl (KeyError "ace_before") /\
  process_file "20240101_000000" lone_frame = inl (KeyError "ace_after").
Proof.
  split.
  - apply (key_error "20240101_000000" bare_frame "ace_before").
    left. split; reflexivity.
  - apply (key_error "20240101_000000" lone_frame "ace_after").
    right. repeat split. discriminate.
Defined.
